(** * Ethereal Entity: the state engine and the particle systems

    A shallow embedding of the algorithmic core of the repository:

    - [Engine]  : [src/hooks/useEntityState.ts] (transition durations, cubic
                  easing, the transition hook, parameter interpolation);
    - [Three]   : the vector, quaternion and matrix arithmetic the particle
                  components call on;
    - [Nebula]  : the per-frame particle update of [NebulaCloud]
                  ([src/components/NebulaEntity.tsx]);
    - [Ophanim] : the construction and per-frame rotation of [ParticleRing],
                  the eyes and the core glow
                  ([src/components/OphanimEntity.tsx]);
    - [SpaceEnvironment] : the layout of the stars
                  ([src/components/SpaceEnvironment.tsx]);
    - [App]     : the form switcher and the keys of [src/App.tsx].

    JavaScript numbers are read as real numbers: every arithmetic expression
    of the source is kept term for term, with [R] in place of binary64 (and
    of the binary32 cells of a [Float32Array]).  Rounding is therefore not
    part of the model.  [Math.random()] and the clock are inputs of the
    functions that consult them. *)

From stdpp Require Import gmap strings.
From Stdlib Require Import Reals Lra Psatz RNsatz.

Open Scope R_scope.

(** ** The state engine, [useEntityState.ts] *)

Module Engine.

(** [type EntityState = 'resting' | 'thinking' | 'acting'] *)
Inductive EntityState : Set := resting | thinking | acting.

#[export] Instance EntityState_eq_dec : EqDecision EntityState.
Proof. solve_decision. Defined.

(** The string a state is at run time; it is what the template literal of
    [getTransitionDuration] splices. *)
Definition stateName (s : EntityState) : string :=
  match s with
  | resting => "resting"
  | thinking => "thinking"
  | acting => "acting"
  end.

(** [interface TransitionState] *)
Record TransitionState : Type := mkTransitionState {
  from : EntityState;
  to : EntityState;
  progress : R;
  isTransitioning : bool
}.

(** [const TRANSITION_DURATIONS: Record<string, number>] *)
Definition TRANSITION_DURATIONS : gmap string R :=
  list_to_map
    [ ("resting-thinking", 1500);
      ("thinking-acting", 600);
      ("acting-resting", 2000);
      ("thinking-resting", 1200);
      ("resting-acting", 800);
      ("acting-thinking", 1000) ].

(** [a || b] on a looked-up number: an absent entry ([undefined]) and the
    number zero are both falsy. *)
Definition orDefault (v : option R) (d : R) : R :=
  match v with
  | Some x => if Req_dec_T x 0 then d else x
  | None => d
  end.

(** [TRANSITION_DURATIONS[`${from}-${to}`]]: the entry under the key spliced
    from the two state names, if there is one. *)
Definition tableEntry (f t : EntityState) : option R :=
  TRANSITION_DURATIONS !! (stateName f +:+ "-" +:+ stateName t).

(** [TRANSITION_DURATIONS[`${from}-${to}`] || 1000] *)
Definition getTransitionDuration (f t : EntityState) : R :=
  orDefault (tableEntry f t) 1000.

(** [t < 0.5 ? 4 * t * t * t : 1 - Math.pow(-2 * t + 2, 3) / 2] *)
Definition easeInOutCubic (t : R) : R :=
  if Rlt_dec t 0.5 then 4 * t * t * t else 1 - (-2 * t + 2) ^ 3 / 2.

(** [transitionRef.current], when it is not [null]. *)
Record TransitionRef : Type := mkTransitionRef {
  startTime : R;
  duration : R
}.

(** What the hook holds between two renders: the two [useState] cells and
    the [transitionRef] cell.  ([animationFrameRef] only keeps the handle of
    the pending frame callback for cancellation; the frames are the calls
    of [advance] below.) *)
Record HookState : Type := mkHookState {
  currentState : EntityState;
  transition : TransitionState;
  transitionRef : option TransitionRef
}.

(** The initial values of the three cells. *)
Definition initialState : HookState :=
  {| currentState := resting;
     transition := {| from := resting; to := resting;
                      progress := 1; isTransitioning := false |};
     transitionRef := None |}.

(** [transitionTo(newState)], called when [performance.now()] reads [now]. *)
Definition transitionTo (now : R) (newState : EntityState) (h : HookState)
  : HookState :=
  if bool_decide (newState = currentState h)
     || isTransitioning (transition h)
  then h
  else
    let d := getTransitionDuration (currentState h) newState in
    {| currentState := currentState h;
       transition := {| from := currentState h; to := newState;
                        progress := 0; isTransitioning := true |};
       transitionRef := Some {| startTime := now; duration := d |} |}.

(** [Math.min(elapsed / duration, 1)], the local [rawProgress] of
    [animate]. *)
Definition rawProgress (now : R) (r : TransitionRef) : R :=
  Rmin ((now - startTime r) / duration r) 1.

(** The frame callback [animate], run when [performance.now()] reads [now].
    The [transition.to] it commits is the one its effect closed over, which
    is the [to] of the live record: the effect is re-run whenever
    [transition.to] changes. *)
Definition animate (now : R) (h : HookState) : HookState :=
  match transitionRef h with
  | None => h
  | Some r =>
      let raw := rawProgress now r in
      let easedProgress := easeInOutCubic raw in
      let prev := transition h in
      if Rge_dec raw 1 then
        {| currentState := to prev;
           transition := {| from := from prev; to := to prev;
                            progress := 1; isTransitioning := false |};
           transitionRef := None |}
      else
        {| currentState := currentState h;
           transition := {| from := from prev; to := to prev;
                            progress := easedProgress;
                            isTransitioning := isTransitioning prev |};
           transitionRef := Some r |}
  end.

(** One animation frame of the effect: nothing is scheduled unless a
    transition is live ([!transition.isTransitioning || !transitionRef.current]
    returns early), otherwise the frame runs [animate]. *)
Definition advance (now : R) (h : HookState) : HookState :=
  if negb (isTransitioning (transition h))
     || negb (bool_decide (is_Some (transitionRef h)))
  then h
  else animate now h.

(** Frames at the successive clock readings [ticks]. *)
Definition advanceAll (ticks : list R) (h : HookState) : HookState :=
  foldl (fun s now => advance now s) h ticks.

(** [const stateValues = { resting: ..., thinking: ..., acting: ... }],
    indexed by a state. *)
Definition stateValues (restingValue thinkingValue actingValue : R)
    (s : EntityState) : R :=
  match s with
  | resting => restingValue
  | thinking => thinkingValue
  | acting => actingValue
  end.

Definition getInterpolatedValue
    (restingValue thinkingValue actingValue : R)
    (currentState : EntityState) (transition : TransitionState) : R :=
  let values := stateValues restingValue thinkingValue actingValue in
  if negb (isTransitioning transition) then values currentState
  else
    let fromValue := values (from transition) in
    let toValue := values (to transition) in
    fromValue + (toValue - fromValue) * progress transition.

(** A transition from [f] to [t], started at clock reading [t0] and lasting
    [d], is live in [h]. *)
Definition live (f t : EntityState) (t0 d : R) (h : HookState) : Prop :=
  currentState h = f
  /\ from (transition h) = f
  /\ to (transition h) = t
  /\ isTransitioning (transition h) = true
  /\ transitionRef h = Some {| startTime := t0; duration := d |}.

(** The hook states the engine can be in: the initial one, and what calls of
    [transitionTo] and animation frames make of them.  [performance.now()]
    never runs backwards, so a frame is not earlier than the start of the
    transition it animates. *)
Inductive reachable : HookState -> Prop :=
| reachable_initial : reachable initialState
| reachable_transitionTo (now : R) (target : EntityState) (h : HookState) :
    reachable h -> reachable (transitionTo now target h)
| reachable_advance (now : R) (h : HookState) :
    reachable h ->
    (forall r, transitionRef h = Some r -> startTime r <= now) ->
    reachable (advance now h).

(** The progress of the record is between 0 and 1, and a pending transition
    has a positive duration. *)
Definition wellFormed (h : HookState) : Prop :=
  0 <= progress (transition h) <= 1
  /\ forall r, transitionRef h = Some r -> 0 < duration r.

(** What happens to the hook between renders: a call of [transitionTo]
    (from a key or a button), or an animation frame of the effect. *)
Inductive Event : Type :=
| Request (now : R) (target : EntityState)
| Frame (now : R).

Definition step (h : HookState) (e : Event) : HookState :=
  match e with
  | Request now target => transitionTo now target h
  | Frame now => advance now h
  end.

Definition run (events : list Event) (h : HookState) : HookState :=
  foldl step h events.

(** The frames of [events] all come before the transition of [r] is due. *)
Definition beforeDue (r : TransitionRef) (e : Event) : Prop :=
  match e with
  | Request _ _ => True
  | Frame now => now - startTime r < duration r
  end.

(** How the three cells of the hook hang together.  While a transition is
    active it leaves from the current state for another one, and
    [transitionRef] holds its start with the duration of that pair; when none
    is active the record rests at progress 1 on the current state and
    [transitionRef] is [null]. *)
Definition consistent (h : HookState) : Prop :=
  if isTransitioning (transition h) then
    from (transition h) = currentState h
    /\ to (transition h) <> currentState h
    /\ exists t0 : R,
         transitionRef h =
           Some {| startTime := t0;
                   duration := getTransitionDuration (currentState h)
                                 (to (transition h)) |}
  else
    to (transition h) = currentState h
    /\ progress (transition h) = 1
    /\ transitionRef h = None.

End Engine.

(** ** Vector, quaternion and matrix arithmetic *)

Module Three.

(** Modelled from the spec: three.js is a dependency of the repository and
    its sources are not part of it.  The spec speaks of "a quaternion
    derived from aligning a reference up vector to the axis", of "an
    incremental rotation quaternion from (axis, angle)" applied as a "rigid
    rotation about the ring axis", and of "a small step toward the origin";
    the definitions of this module are the arithmetic of the three.js
    methods of those names, written component by component.  [Vector3] is
    the three.js class of that name. *)
Record Vector3 : Type := mkVector3 { vx : R; vy : R; vz : R }.

(** Modelled from the spec: the class [Quaternion] of three.js (not in the
    repository). *)
Record Quaternion : Type := mkQuaternion { qx : R; qy : R; qz : R; qw : R }.

(** Modelled from the spec: the class [Matrix4] of three.js (not in the
    repository), as its sixteen [elements], column-major. *)
Record Matrix4 : Type := mkMatrix4 {
  e0 : R; e1 : R; e2 : R; e3 : R;
  e4 : R; e5 : R; e6 : R; e7 : R;
  e8 : R; e9 : R; e10 : R; e11 : R;
  e12 : R; e13 : R; e14 : R; e15 : R
}.

(** [Number.EPSILON], two to the power -52. *)
Definition EPSILON : R := / 2 ^ 52.

(** Modelled from the spec: [Vector3.dot] of three.js (not in the
    repository). *)
Definition dot (a b : Vector3) : R :=
  vx a * vx b + vy a * vy b + vz a * vz b.

(** Modelled from the spec: [Vector3.length] of three.js (not in the
    repository). *)
Definition length (v : Vector3) : R :=
  sqrt (vx v * vx v + vy v * vy v + vz v * vz v).

(** Modelled from the spec: [Vector3.multiplyScalar] of three.js (not in the
    repository). *)
Definition multiplyScalar (v : Vector3) (s : R) : Vector3 :=
  {| vx := vx v * s; vy := vy v * s; vz := vz v * s |}.

(** Modelled from the spec: [Vector3.divideScalar] of three.js (not in the
    repository), which is [multiplyScalar(1 / scalar)]. *)
Definition divideScalar (v : Vector3) (s : R) : Vector3 :=
  multiplyScalar v (1 / s).

(** Modelled from the spec: [Vector3.normalize] of three.js (not in the
    repository), which is [divideScalar(this.length() || 1)]. *)
Definition normalize (v : Vector3) : Vector3 :=
  divideScalar v (if Req_dec_T (length v) 0 then 1 else length v).

(** Modelled from the spec: [Quaternion.length] of three.js (not in the
    repository). *)
Definition qlength (q : Quaternion) : R :=
  sqrt (qx q * qx q + qy q * qy q + qz q * qz q + qw q * qw q).

(** Modelled from the spec: [Quaternion.normalize] of three.js (not in the
    repository): the identity rotation for a zero quaternion, otherwise
    every component times [1 / length]. *)
Definition qnormalize (q : Quaternion) : Quaternion :=
  let l := qlength q in
  if Req_dec_T l 0 then {| qx := 0; qy := 0; qz := 0; qw := 1 |}
  else
    let l := 1 / l in
    {| qx := qx q * l; qy := qy q * l; qz := qz q * l; qw := qw q * l |}.

(** Modelled from the spec: [Quaternion.setFromAxisAngle] of three.js (not
    in the repository); the axis is taken to be normalized. *)
Definition setFromAxisAngle (axis : Vector3) (angle : R) : Quaternion :=
  let halfAngle := angle / 2 in
  let s := sin halfAngle in
  {| qx := vx axis * s; qy := vy axis * s; qz := vz axis * s;
     qw := cos halfAngle |}.

(** Modelled from the spec: [Quaternion.setFromUnitVectors] of three.js (not
    in the repository); both vectors are taken to be normalized, and
    opposite vectors get a half turn about a perpendicular. *)
Definition setFromUnitVectors (vFrom vTo : Vector3) : Quaternion :=
  let r := dot vFrom vTo + 1 in
  qnormalize
    (if Rlt_dec r EPSILON then
       if Rgt_dec (Rabs (vx vFrom)) (Rabs (vz vFrom)) then
         {| qx := - vy vFrom; qy := vx vFrom; qz := 0; qw := 0 |}
       else
         {| qx := 0; qy := - vz vFrom; qz := vy vFrom; qw := 0 |}
     else
       {| qx := vy vFrom * vz vTo - vz vFrom * vy vTo;
          qy := vz vFrom * vx vTo - vx vFrom * vz vTo;
          qz := vx vFrom * vy vTo - vy vFrom * vx vTo;
          qw := r |}).

(** Modelled from the spec: [Matrix4.makeRotationFromQuaternion] of three.js
    (not in the repository), which is [compose] with a zero position and a
    unit scale. *)
Definition makeRotationFromQuaternion (q : Quaternion) : Matrix4 :=
  let x := qx q in let y := qy q in let z := qz q in let w := qw q in
  let x2 := x + x in let y2 := y + y in let z2 := z + z in
  let xx := x * x2 in let xy := x * y2 in let xz := x * z2 in
  let yy := y * y2 in let yz := y * z2 in let zz := z * z2 in
  let wx := w * x2 in let wy := w * y2 in let wz := w * z2 in
  {| e0 := (1 - (yy + zz)) * 1; e1 := (xy + wz) * 1; e2 := (xz - wy) * 1;
     e3 := 0;
     e4 := (xy - wz) * 1; e5 := (1 - (xx + zz)) * 1; e6 := (yz + wx) * 1;
     e7 := 0;
     e8 := (xz + wy) * 1; e9 := (yz - wx) * 1; e10 := (1 - (xx + yy)) * 1;
     e11 := 0;
     e12 := 0; e13 := 0; e14 := 0; e15 := 1 |}.

(** Modelled from the spec: [Vector3.applyMatrix4] of three.js (not in the
    repository), with its perspective divide. *)
Definition applyMatrix4 (m : Matrix4) (v : Vector3) : Vector3 :=
  let x := vx v in let y := vy v in let z := vz v in
  let w := 1 / (e3 m * x + e7 m * y + e11 m * z + e15 m) in
  {| vx := (e0 m * x + e4 m * y + e8 m * z + e12 m) * w;
     vy := (e1 m * x + e5 m * y + e9 m * z + e13 m) * w;
     vz := (e2 m * x + e6 m * y + e10 m * z + e14 m) * w |}.

(** Modelled from the spec: [Vector3.applyQuaternion] of three.js (not in
    the repository): [v + q.w * t + cross(q.xyz, t)] with
    [t = 2 * cross(q.xyz, v)]. *)
Definition applyQuaternion (q : Quaternion) (v : Vector3) : Vector3 :=
  let tx := 2 * (qy q * vz v - qz q * vy v) in
  let ty := 2 * (qz q * vx v - qx q * vz v) in
  let tz := 2 * (qx q * vy v - qy q * vx v) in
  {| vx := vx v + qw q * tx + qy q * tz - qz q * ty;
     vy := vy v + qw q * ty + qz q * tx - qx q * tz;
     vz := vz v + qw q * tz + qx q * ty - qy q * tx |}.

(** How far a point is from the line through the origin along the unit
    vector [axis]: the length of what is left of the point once its
    component along the axis is taken away. *)
Definition distanceFromAxis (axis p : Vector3) : R :=
  let k := dot p axis in
  length {| vx := vx p - k * vx axis;
            vy := vy p - k * vy axis;
            vz := vz p - k * vz axis |}.

End Three.

(** ** [Math.atan2] *)

(** The angle of the point [(x, y)], in the range from [- PI] to [PI], by the
    quadrant of the point, as ECMAScript lays it out. *)
Definition atan2 (y x : R) : R :=
  if Rlt_dec 0 x then atan (y / x)
  else if Rlt_dec x 0 then
    if Rle_dec 0 y then atan (y / x) + PI else atan (y / x) - PI
  else if Rlt_dec 0 y then PI / 2
  else if Rlt_dec y 0 then - (PI / 2)
  else 0.

(** ** The cloud, [NebulaCloud] of [NebulaEntity.tsx] *)

Module Nebula.
Import Engine Three.

Definition CORE_PARTICLES : nat := 400.
Definition MID_PARTICLES : nat := 350.
Definition EDGE_PARTICLES : nat := 250.
Definition TOTAL_PARTICLES : nat :=
  (CORE_PARTICLES + MID_PARTICLES + EDGE_PARTICLES)%nat.

(** The state-based values of a frame. *)
Definition flowSpeed (cs : EntityState) (tr : TransitionState) : R :=
  getInterpolatedValue 0.3 0.8 1.5 cs tr.
Definition contraction (cs : EntityState) (tr : TransitionState) : R :=
  getInterpolatedValue 1.0 0.7 0.5 cs tr.
Definition intensity (cs : EntityState) (tr : TransitionState) : R :=
  getInterpolatedValue 0.4 0.7 1.2 cs tr.
Definition spiralStrength (cs : EntityState) (tr : TransitionState) : R :=
  getInterpolatedValue 0.0 0.3 0.6 cs tr.
Definition chaosAmount (cs : EntityState) (tr : TransitionState) : R :=
  getInterpolatedValue 0.02 0.05 0.1 cs tr.

(** The local [dist] of the flow field: how far the particle is from the
    vertical axis. *)
Definition horizontalRadius (p : Vector3) : R :=
  sqrt (vx p * vx p + vz p * vz p).

(** The locals [rotSpeed] and [newDist] of the flow field. *)
Definition rotSpeed (flowSpeed layer delta : R) : R :=
  flowSpeed * (0.5 + layer * 0.3) * delta.

Definition newDist (spiralStrength layer delta dist : R) : R :=
  let spiralPull := spiralStrength * delta * (layer + 1) in
  Rmax 0.1 (dist - spiralPull * 0.1).

(** "Flow field - circular motion around Y axis", with "Spiral inward
    during thinking/acting". *)
Definition flowField (flowSpeed spiralStrength layer delta : R)
    (p : Vector3) : Vector3 :=
  let x := vx p in let z := vz p in
  let dist := horizontalRadius p in
  if Rgt_dec dist 0.01 then
    let angle := atan2 z x in
    let newAngle := angle + rotSpeed flowSpeed layer delta in
    let nd := newDist spiralStrength layer delta dist in
    {| vx := cos newAngle * nd; vy := vy p; vz := sin newAngle * nd |}
  else p.

(** The flow step as the spec words it, for comparison with [flowField]:
    "advance the angle by [flowSpeed * (0.5 + shellIndex*0.3) * dt] and pull
    the radius inward by [spiralStrength * dt * (shellIndex+1) * 0.1]", for
    every particle. *)
Definition flowFieldAsSpecified (flowSpeed spiralStrength layer delta : R)
    (p : Vector3) : Vector3 :=
  let dist := horizontalRadius p in
  let angle := atan2 (vz p) (vx p) in
  let newAngle := angle + flowSpeed * (0.5 + layer * 0.3) * delta in
  let newRadius := dist - spiralStrength * delta * (layer + 1) * 0.1 in
  {| vx := cos newAngle * newRadius; vy := vy p;
     vz := sin newAngle * newRadius |}.

(** "Vertical oscillation" *)
Definition oscillate (flowSpeed time : R) (i : nat) (p : Vector3) : Vector3 :=
  {| vx := vx p;
     vy := vy p + sin (time * 2 + INR i * 0.1) * 0.002 * flowSpeed;
     vz := vz p |}.

(** "Gentle pull toward center (breathing)" *)
Definition pullToCenter (flowSpeed delta : R) (p : Vector3) : Vector3 :=
  let toCenter :=
    normalize {| vx := - vx p; vy := - vy p; vz := - vz p |} in
  let pullStrength := 0.01 * flowSpeed in
  {| vx := vx p + vx toCenter * pullStrength * delta;
     vy := vy p + vy toCenter * pullStrength * delta;
     vz := vz p + vz toCenter * pullStrength * delta |}.

(** "Add chaos": [rnd] holds the three readings of [Math.random()]. *)
Definition addChaos (chaosAmount : R) (rnd : R * R * R) (p : Vector3)
  : Vector3 :=
  let '(r1, r2, r3) := rnd in
  {| vx := vx p + (r1 - 0.5) * chaosAmount;
     vy := vy p + (r2 - 0.5) * chaosAmount;
     vz := vz p + (r3 - 0.5) * chaosAmount |}.

(** [layer === 0 ? 0.8 : layer === 1 ? 1.5 : 2.5] *)
Definition maxDist (layer : R) : R :=
  if Req_dec_T layer 0 then 0.8
  else if Req_dec_T layer 1 then 1.5 else 2.5.

(** "Soft boundary - push back if too far" *)
Definition softBoundary (contraction layer : R) (p : Vector3) : Vector3 :=
  let x := vx p in let y := vy p in let z := vz p in
  let currentDist := sqrt (x * x + y * y + z * z) in
  if Rgt_dec currentDist (maxDist layer * contraction) then
    let scale := (maxDist layer * contraction) / currentDist in
    {| vx := x * (scale * 0.95);
       vy := y * (scale * 0.95);
       vz := z * (scale * 0.95) |}
  else p.

(** What the particle is moved to before the boundary is looked at. *)
Definition moveParticle (cs : EntityState) (tr : TransitionState)
    (time delta : R) (i : nat) (layer : R) (rnd : R * R * R)
    (p : Vector3) : Vector3 :=
  let fs := flowSpeed cs tr in
  addChaos (chaosAmount cs tr) rnd
    (pullToCenter fs delta
      (oscillate fs time i
        (flowField fs (spiralStrength cs tr) layer delta p))).

(** The body of the particle loop of [useFrame]: the position that
    [posAttr.setXYZ(i, x, y, z)] stores for particle [i]. *)
Definition updateParticle (cs : EntityState) (tr : TransitionState)
    (time delta : R) (i : nat) (layer : R) (rnd : R * R * R)
    (p : Vector3) : Vector3 :=
  softBoundary (contraction cs tr) layer
    (moveParticle cs tr time delta i layer rnd p).

(** The particle loop of [useFrame]: [layers] is the [layer] attribute,
    [positions] the [position] attribute, and [rand i] the three readings
    of [Math.random()] taken for particle [i]. *)
Definition useFrame (cs : EntityState) (tr : TransitionState)
    (time delta : R) (layers : list R) (rand : nat -> R * R * R)
    (positions : list Vector3) : list Vector3 :=
  imap (fun i p =>
          updateParticle cs tr time delta i (default 0 (layers !! i))
            (rand i) p)
       positions.

(** One particle of the cloud as [useMemo] lays it out: its cells of the
    [positions], [sizes], [layers], [phases] and [velocities] arrays. *)
Record CloudParticle : Type := mkCloudParticle {
  cp_position : Vector3;
  cp_size : R;
  cp_layer : R;
  cp_phase : R;
  cp_velocity : Vector3
}.

(** The body of the loop "Core particles (dense center)"; [random n] is what
    the [n]-th call of [Math.random()] returns, and [k] counts the calls made
    before the particle. *)
Definition coreParticle (random : nat -> R) (k : nat) : CloudParticle :=
  let theta := random k * PI * 2 in
  let phi := acos (2 * random (k + 1)%nat - 1) in
  let r := random (k + 2)%nat * 0.6 in
  {| cp_position :=
       mkVector3 (r * sin phi * cos theta) (r * sin phi * sin theta)
                 (r * cos phi);
     cp_size := 3.0 + random (k + 3)%nat * 2.0;
     cp_layer := 0;
     cp_phase := random (k + 4)%nat * PI * 2;
     cp_velocity :=
       mkVector3 ((random (k + 5)%nat - 0.5) * 0.02)
                 ((random (k + 6)%nat - 0.5) * 0.02)
                 ((random (k + 7)%nat - 0.5) * 0.02) |}.

(** The body of the loop "Mid particles". *)
Definition midParticle (random : nat -> R) (k : nat) : CloudParticle :=
  let theta := random k * PI * 2 in
  let phi := acos (2 * random (k + 1)%nat - 1) in
  let r := 0.5 + random (k + 2)%nat * 1.0 in
  {| cp_position :=
       mkVector3 (r * sin phi * cos theta) (r * sin phi * sin theta)
                 (r * cos phi);
     cp_size := 2.0 + random (k + 3)%nat * 1.5;
     cp_layer := 1;
     cp_phase := random (k + 4)%nat * PI * 2;
     cp_velocity :=
       mkVector3 ((random (k + 5)%nat - 0.5) * 0.04)
                 ((random (k + 6)%nat - 0.5) * 0.04)
                 ((random (k + 7)%nat - 0.5) * 0.04) |}.

(** The body of the loop "Edge particles (sparse wisps)". *)
Definition edgeParticle (random : nat -> R) (k : nat) : CloudParticle :=
  let theta := random k * PI * 2 in
  let phi := acos (2 * random (k + 1)%nat - 1) in
  let r := 1.2 + random (k + 2)%nat * 1.3 in
  {| cp_position :=
       mkVector3 (r * sin phi * cos theta) (r * sin phi * sin theta)
                 (r * cos phi);
     cp_size := 1.0 + random (k + 3)%nat * 1.0;
     cp_layer := 2;
     cp_phase := random (k + 4)%nat * PI * 2;
     cp_velocity :=
       mkVector3 ((random (k + 5)%nat - 0.5) * 0.08)
                 ((random (k + 6)%nat - 0.5) * 0.08)
                 ((random (k + 7)%nat - 0.5) * 0.08) |}.

(** The three loops of [useMemo], one after the other: every particle takes
    eight readings of [Math.random()], and [idx] runs on from one loop to the
    next. *)
Definition initialParticles (random : nat -> R) : list CloudParticle :=
  ((fun i => coreParticle random (8 * i)) <$> seq 0 CORE_PARTICLES)
  ++ ((fun i => midParticle random (8 * (CORE_PARTICLES + i)))
        <$> seq 0 MID_PARTICLES)
  ++ ((fun i =>
         edgeParticle random (8 * (CORE_PARTICLES + MID_PARTICLES + i)))
        <$> seq 0 EDGE_PARTICLES).

(** [NebulaCore], [useFrame]: the value given to
    [meshRef.current.scale.setScalar], with its locals [intensity], [scale]
    and [breathe]. *)
Definition NebulaCore_scale (cs : EntityState) (tr : TransitionState)
    (time : R) : R :=
  let intensity := getInterpolatedValue 0.4 0.7 1.5 cs tr in
  let scale := getInterpolatedValue 0.4 0.35 0.25 cs tr in
  let breathe := 1 + sin (time * 2) * 0.1 * intensity in
  scale * breathe.

End Nebula.

(** ** The rings, [ParticleRing] of [OphanimEntity.tsx] *)

Module Ophanim.
Import Engine Three.

Definition RING_COUNT : nat := 4.
Definition PARTICLES_PER_RING : nat := 180.

(** [interface RingConfig] *)
Record RingConfig : Type := mkRingConfig {
  axis : Vector3;
  radius : R;
  speed : R;
  phase : R
}.

Definition RING_CONFIGS : list RingConfig :=
  [ {| axis := mkVector3 1 0 0; radius := 2.0; speed := 1.0; phase := 0 |};
    {| axis := mkVector3 0 1 0; radius := 1.8; speed := -0.8;
       phase := PI / 4 |};
    {| axis := mkVector3 0 0 1; radius := 1.6; speed := 0.9;
       phase := PI / 2 |};
    {| axis := normalize (mkVector3 1 1 0); radius := 1.4; speed := -0.7;
       phase := PI * 0.75 |} ].

(** The rotation matrix that "orients the ring on its axis". *)
Definition ringMatrix (config : RingConfig) : Matrix4 :=
  let up := mkVector3 0 1 0 in
  let quaternion := setFromUnitVectors up (axis config) in
  makeRotationFromQuaternion quaternion.

(** The base position of particle [i] of a ring. *)
Definition basePosition (config : RingConfig) (i : nat) : Vector3 :=
  let angle := (INR i / INR PARTICLES_PER_RING) * PI * 2 in
  let pos := mkVector3 (cos angle * radius config) 0
                       (sin angle * radius config) in
  applyMatrix4 (ringMatrix config) pos.

(** [basePositions], one entry per particle; the geometry starts from a
    copy of it. *)
Definition basePositions (config : RingConfig) : list Vector3 :=
  map (basePosition config) (seq 0 PARTICLES_PER_RING).

Definition speedMultiplier (cs : EntityState) (tr : TransitionState) : R :=
  getInterpolatedValue 0.3 0.8 2.0 cs tr.

(** "Rotate particles around the ring axis": the particle loop of
    [useFrame]. *)
Definition useFrame (config : RingConfig) (cs : EntityState)
    (tr : TransitionState) (delta : R) (positions : list Vector3)
  : list Vector3 :=
  let quaternion :=
    setFromAxisAngle (axis config)
      (delta * speed config * speedMultiplier cs tr) in
  map (fun pos => applyQuaternion quaternion pos) positions.

(** Successive frames, each with the state, the transition and the [delta]
    it is given. *)
Definition runFrames (config : RingConfig)
    (frames : list (EntityState * TransitionState * R))
    (positions : list Vector3) : list Vector3 :=
  foldl (fun ps '(cs, tr, delta) => useFrame config cs tr delta ps)
        positions frames.

(** Every particle of [positions] is at distance [radius] from the axis of
    the ring. *)
Definition onRing (config : RingConfig) (positions : list Vector3) : Prop :=
  Forall (fun p => distanceFromAxis (axis config) p = radius config)
         positions.

(** What a ring keeps from frame to frame: [rotationRef.current] and the
    [position] attribute of its geometry. *)
Record RingState : Type := mkRingState {
  rs_rotation : R;
  rs_positions : list Vector3
}.

(** A ring when it is mounted: [useRef(0)], and a copy of [basePositions]. *)
Definition ringInitial (config : RingConfig) : RingState :=
  {| rs_rotation := 0; rs_positions := basePositions config |}.

(** [ParticleRing], [useFrame]: the rotation counter and the positions. *)
Definition ringFrame (config : RingConfig) (cs : EntityState)
    (tr : TransitionState) (delta : R) (s : RingState) : RingState :=
  {| rs_rotation :=
       rs_rotation s + delta * speed config * speedMultiplier cs tr;
     rs_positions := useFrame config cs tr delta (rs_positions s) |}.

Definition ringFrames (config : RingConfig)
    (frames : list (EntityState * TransitionState * R)) (s : RingState)
  : RingState :=
  foldl (fun st '(cs, tr, delta) => ringFrame config cs tr delta st) s frames.

Definition EYE_COUNT : nat := 8.
Definition PARTICLES_PER_EYE : nat := 30.

(** One particle of an eye: its cells of the [positions], [sizes] and
    [distances] arrays. *)
Record EyeParticle : Type := mkEyeParticle {
  ep_position : Vector3;
  ep_size : R;
  ep_distance : R
}.

(** [Eye], the body of the loop "Create iris-like pattern".  [i] is a loop
    counter, so [Math.floor(i / 10)] is the quotient of the division of [i]
    by 10. *)
Definition eyeParticle (i : nat) : EyeParticle :=
  let angle := (INR i / INR PARTICLES_PER_EYE) * PI * 2 in
  let ring := INR (i / 10)%nat in
  let dist := 0.05 + ring * 0.08 in
  let x := cos angle * dist in
  let y := sin angle * dist in
  {| ep_position := mkVector3 x y 0;
     ep_size := if Req_dec_T ring 0 then 4.0 else 2.5 - ring * 0.3;
     ep_distance := dist |}.

Definition eyeParticles : list EyeParticle :=
  eyeParticle <$> seq 0 PARTICLES_PER_EYE.

(** [Eye], [useFrame]: the value given to [uIntensity], with the
    "sequential activation during thinking" and "all eyes blaze during
    acting". *)
Definition eyeIntensity (index : nat) (cs : EntityState)
    (tr : TransitionState) (time : R) : R :=
  let intensity := getInterpolatedValue 0.3 0.7 1.5 cs tr in
  let finalIntensity := intensity in
  let finalIntensity :=
    if bool_decide (cs = thinking)
       || (isTransitioning tr && bool_decide (to tr = thinking))
    then
      let scanWave := sin (time * 3 + INR index * 0.8) in
      finalIntensity * (0.7 + scanWave * 0.3)
    else finalIntensity in
  let finalIntensity :=
    if bool_decide (cs = acting) then
      let blaze := 0.8 + sin (time * 8) * 0.2 in
      finalIntensity * blaze
    else finalIntensity in
  finalIntensity.

(** [CoreGlow], [useFrame]: the value given to
    [meshRef.current.scale.setScalar]. *)
Definition CoreGlow_scale (cs : EntityState) (tr : TransitionState)
    (time : R) : R :=
  let intensity := getInterpolatedValue 0.3 0.6 1.2 cs tr in
  let scale := getInterpolatedValue 0.8 0.9 1.1 cs tr in
  let breathe := 1 + sin (time * 1.5) * 0.05 * intensity in
  scale * breathe.

End Ophanim.

(** ** The stars, [Stars] of [SpaceEnvironment.tsx] *)

Module SpaceEnvironment.
Import Three.

Definition STAR_COUNT : nat := 200.

(** One star: its cells of the [positions], [sizes] and [phases] arrays. *)
Record Star : Type := mkStar {
  star_position : Vector3;
  star_size : R;
  star_phase : R
}.

(** The body of the loop "Distribute stars on a sphere around the scene";
    [random n] is what the [n]-th call of [Math.random()] returns, and [k]
    counts the calls made before the star. *)
Definition star (random : nat -> R) (k : nat) : Star :=
  let theta := random k * PI * 2 in
  let phi := acos (2 * random (k + 1)%nat - 1) in
  let radius := 80 + random (k + 2)%nat * 40 in
  {| star_position :=
       mkVector3 (radius * sin phi * cos theta) (radius * sin phi * sin theta)
                 (radius * cos phi);
     star_size := random (k + 3)%nat * 1.5 + 0.5;
     star_phase := random (k + 4)%nat * PI * 2 |}.

(** The loop of [useMemo]: five readings of [Math.random()] per star. *)
Definition stars (random : nat -> R) : list Star :=
  (fun i => star random (5 * i)) <$> seq 0 STAR_COUNT.

End SpaceEnvironment.

(** ** The application shell, [App.tsx] *)

Module App.

(** [type EntityForm = 'ophanim' | 'nebula' | 'lattice'] *)
Inductive EntityForm : Set := ophanim | nebula | lattice.

#[export] Instance EntityForm_eq_dec : EqDecision EntityForm.
Proof. solve_decision. Defined.










End App.

(** * Properties *)

(** ** The state engine *)

Section EngineFacts.
Import Engine.

Lemma orDefault_nonzero (x d : R) : x <> 0 -> orDefault (Some x) d = x.
Proof.
  intros Hx. unfold orDefault.
  destruct (Req_dec_T x 0); [contradiction | reflexivity].
Qed.

Lemma tableEntry_cases (f t : EntityState) :
  tableEntry f t =
    match f, t with
    | resting, thinking => Some 1500
    | thinking, acting => Some 600
    | acting, resting => Some 2000
    | thinking, resting => Some 1200
    | resting, acting => Some 800
    | acting, thinking => Some 1000
    | _, _ => None
    end.
Proof. destruct f, t; reflexivity. Qed.

Lemma getTransitionDuration_cases (f t : EntityState) :
  getTransitionDuration f t =
    match f, t with
    | resting, thinking => 1500
    | thinking, acting => 600
    | acting, resting => 2000
    | thinking, resting => 1200
    | resting, acting => 800
    | _, _ => 1000
    end.
Proof.
  unfold getTransitionDuration. rewrite tableEntry_cases.
  destruct f, t; try reflexivity; apply orDefault_nonzero; lra.
Qed.

Lemma getTransitionDuration_pos (f t : EntityState) :
  0 < getTransitionDuration f t.
Proof. rewrite getTransitionDuration_cases. destruct f, t; lra. Qed.

(** C9. [getTransitionDuration] is a total function: it returns the
    configured duration for the six listed pairs (1500, 600, 2000, 1200, 800
    and 1000 ms), and the default 1000 ms for every pair that has no entry in
    [TRANSITION_DURATIONS], which is the case of every pair with
    [from = to]. *)
Theorem getTransitionDuration_total :
  (getTransitionDuration resting thinking = 1500
   /\ getTransitionDuration thinking acting = 600
   /\ getTransitionDuration acting resting = 2000
   /\ getTransitionDuration thinking resting = 1200
   /\ getTransitionDuration resting acting = 800
   /\ getTransitionDuration acting thinking = 1000)
  /\ (forall f t : EntityState,
        getTransitionDuration f t = default 1000 (tableEntry f t))
  /\ (forall s : EntityState,
        tableEntry s s = None /\ getTransitionDuration s s = 1000).
Proof.
  repeat split; try (rewrite getTransitionDuration_cases; reflexivity).
  - intros f t. rewrite getTransitionDuration_cases, tableEntry_cases.
    destruct f, t; reflexivity.
  - rewrite tableEntry_cases. destruct s; reflexivity.
  - rewrite getTransitionDuration_cases. destruct s; reflexivity.
Qed.

(** *** Easing *)

Lemma easeInOutCubic_low (t : R) :
  t < 0.5 -> easeInOutCubic t = 4 * t ^ 3.
Proof.
  intros Ht. unfold easeInOutCubic. destruct (Rlt_dec t 0.5); [ring | lra].
Qed.

Lemma easeInOutCubic_high (t : R) :
  0.5 <= t -> easeInOutCubic t = 1 - (-2 * t + 2) ^ 3 / 2.
Proof.
  intros Ht. unfold easeInOutCubic. destruct (Rlt_dec t 0.5); [lra | reflexivity].
Qed.

Lemma cube_monotone (a b : R) : a <= b -> a ^ 3 <= b ^ 3.
Proof.
  intros Hab.
  assert (H : b ^ 3 - a ^ 3 = (b - a) * ((a + b / 2) ^ 2 + 3 / 4 * b ^ 2))
    by field.
  assert (0 <= (a + b / 2) ^ 2) by (apply pow2_ge_0).
  assert (0 <= b ^ 2) by (apply pow2_ge_0).
  assert (0 <= (b - a) * ((a + b / 2) ^ 2 + 3 / 4 * b ^ 2))
    by (apply Rmult_le_pos; lra).
  lra.
Qed.

Lemma easeInOutCubic_monotone (s t : R) :
  s <= t -> easeInOutCubic s <= easeInOutCubic t.
Proof.
  intros Hst.
  destruct (Rlt_dec s 0.5) as [Hs | Hs]; destruct (Rlt_dec t 0.5) as [Ht | Ht].
  - rewrite !easeInOutCubic_low by assumption.
    pose proof (cube_monotone s t Hst). lra.
  - rewrite easeInOutCubic_low by assumption.
    rewrite easeInOutCubic_high by lra.
    pose proof (cube_monotone s 0.5 ltac:(lra)) as H1.
    pose proof (cube_monotone (-2 * t + 2) 1 ltac:(lra)) as H2.
    lra.
  - lra.
  - rewrite !easeInOutCubic_high by lra.
    pose proof (cube_monotone (-2 * t + 2) (-2 * s + 2) ltac:(lra)). lra.
Qed.

Lemma easeInOutCubic_0 : easeInOutCubic 0 = 0.
Proof. rewrite easeInOutCubic_low by lra. ring. Qed.

Lemma easeInOutCubic_1 : easeInOutCubic 1 = 1.
Proof. rewrite easeInOutCubic_high by lra. lra. Qed.

Lemma easeInOutCubic_half : easeInOutCubic 0.5 = 0.5.
Proof. rewrite easeInOutCubic_high by lra. lra. Qed.

Lemma easeInOutCubic_range (t : R) :
  0 <= t <= 1 -> 0 <= easeInOutCubic t <= 1.
Proof.
  intros [H0 H1].
  pose proof (easeInOutCubic_monotone 0 t H0) as Hlo.
  pose proof (easeInOutCubic_monotone t 1 H1) as Hhi.
  rewrite easeInOutCubic_0 in Hlo. rewrite easeInOutCubic_1 in Hhi.
  split; assumption.
Qed.

(** C4. [easeInOutCubic t] is [4 t^3] below one half and
    [1 - (-2 t + 2)^3 / 2] from one half on; it is 0 at 0, 1 at 1 and 0.5 at
    0.5, it maps [0, 1] into [0, 1], and it never decreases on [0, 1]. *)
Theorem easeInOutCubic_spec :
  (forall t : R, t < 0.5 -> easeInOutCubic t = 4 * t ^ 3)
  /\ (forall t : R, 0.5 <= t -> easeInOutCubic t = 1 - (-2 * t + 2) ^ 3 / 2)
  /\ easeInOutCubic 0 = 0
  /\ easeInOutCubic 1 = 1
  /\ easeInOutCubic 0.5 = 0.5
  /\ (forall t : R, 0 <= t <= 1 -> 0 <= easeInOutCubic t <= 1)
  /\ (forall s t : R,
        0 <= s -> s <= t -> t <= 1 -> easeInOutCubic s <= easeInOutCubic t).
Proof.
  split; [exact easeInOutCubic_low |].
  split; [exact easeInOutCubic_high |].
  split; [exact easeInOutCubic_0 |].
  split; [exact easeInOutCubic_1 |].
  split; [exact easeInOutCubic_half |].
  split; [exact easeInOutCubic_range |].
  intros s t _ Hst _. apply easeInOutCubic_monotone, Hst.
Qed.

Lemma easeInOutCubic_spec_witness :
  easeInOutCubic 0.25 = 4 * 0.25 ^ 3
  /\ easeInOutCubic 0.75 = 1 - (-2 * 0.75 + 2) ^ 3 / 2
  /\ 0 <= easeInOutCubic 0.25 <= 1
  /\ easeInOutCubic 0.25 <= easeInOutCubic 0.75.
Proof.
  destruct easeInOutCubic_spec as (Hlow & Hhigh & _ & _ & _ & Hrange & Hmono).
  split; [apply Hlow; lra |].
  split; [apply Hhigh; lra |].
  split; [apply Hrange; lra |].
  apply Hmono; lra.
Defined.

(** *** Interpolation *)

Lemma getInterpolatedValue_idle (a b c : R) (s : EntityState)
    (t : TransitionState) :
  isTransitioning t = false -> getInterpolatedValue a b c s t = stateValues a b c s.
Proof. intros Ht. unfold getInterpolatedValue. rewrite Ht. reflexivity. Qed.

Lemma getInterpolatedValue_active (a b c : R) (s : EntityState)
    (t : TransitionState) :
  isTransitioning t = true ->
  getInterpolatedValue a b c s t =
    stateValues a b c (from t)
    + (stateValues a b c (to t) - stateValues a b c (from t)) * progress t.
Proof. intros Ht. unfold getInterpolatedValue. rewrite Ht. reflexivity. Qed.

(** C2. [getInterpolatedValue] depends on its five arguments only.  With no
    transition active it returns the value of the current state (so
    [thinkingVal] when idle in Thinking); with a transition from [f] to [t]
    active at eased progress [p] it returns
    [value f + (value t - value f) * p], whatever the three values and [p]. *)
Theorem getInterpolatedValue_spec (a b c : R) :
  (forall (s : EntityState) (t : TransitionState),
      isTransitioning t = false ->
      getInterpolatedValue a b c s t = stateValues a b c s)
  /\ (forall t : TransitionState,
        isTransitioning t = false -> getInterpolatedValue a b c thinking t = b)
  /\ (forall (s f t : EntityState) (p : R),
        getInterpolatedValue a b c s
          {| from := f; to := t; progress := p; isTransitioning := true |}
        = stateValues a b c f + (stateValues a b c t - stateValues a b c f) * p)
  /\ (forall (s : EntityState) (p : R),
        getInterpolatedValue a b c s
          {| from := resting; to := thinking; progress := p;
             isTransitioning := true |}
        = a + (b - a) * p).
Proof.
  split; [intros s t Ht; apply getInterpolatedValue_idle, Ht |].
  split; [intros t Ht; rewrite getInterpolatedValue_idle by exact Ht;
          reflexivity |].
  split; intros; reflexivity.
Qed.

Lemma getInterpolatedValue_spec_witness :
  getInterpolatedValue 0.3 0.8 1.5 acting (transition initialState) = 1.5
  /\ getInterpolatedValue 0.3 0.8 1.5 thinking (transition initialState) = 0.8.
Proof.
  destruct (getInterpolatedValue_spec 0.3 0.8 1.5) as (Hidle & Hthinking & _).
  split.
  - apply (Hidle acting (transition initialState)). reflexivity.
  - apply (Hthinking (transition initialState)). reflexivity.
Defined.

(** C10. While a transition is active the result of [getInterpolatedValue]
    does not depend on the [currentState] argument: two calls that differ in
    it only agree, the value being fixed by the three state values and by
    [from], [to] and [progress] of the transition. *)
Theorem getInterpolatedValue_active_ignores_current
    (a b c : R) (s1 s2 : EntityState) (t : TransitionState) :
  isTransitioning t = true ->
  getInterpolatedValue a b c s1 t = getInterpolatedValue a b c s2 t
  /\ getInterpolatedValue a b c s1 t =
       stateValues a b c (from t)
       + (stateValues a b c (to t) - stateValues a b c (from t)) * progress t.
Proof.
  intros Ht. rewrite !getInterpolatedValue_active by exact Ht. split; reflexivity.
Qed.

Lemma getInterpolatedValue_active_ignores_current_witness :
  getInterpolatedValue 1 0.7 0.5 resting
    {| from := resting; to := acting; progress := 0.25;
       isTransitioning := true |}
  = getInterpolatedValue 1 0.7 0.5 thinking
      {| from := resting; to := acting; progress := 0.25;
         isTransitioning := true |}
  /\ getInterpolatedValue 1 0.7 0.5 resting
       {| from := resting; to := acting; progress := 0.25;
          isTransitioning := true |}
     = 1 + (0.5 - 1) * 0.25.
Proof.
  apply (getInterpolatedValue_active_ignores_current 1 0.7 0.5 resting thinking
           {| from := resting; to := acting; progress := 0.25;
              isTransitioning := true |}).
  reflexivity.
Defined.

(** *** Transitions *)

(** C3. [transitionTo s] while the current state is [s], and [transitionTo]
    of any target while a transition is active, return the hook state they
    were given: the current state, the transition record and the
    [transitionRef] cell are the same, and nothing fails. *)
Theorem transitionTo_noop (now : R) (target : EntityState) (h : HookState) :
  target = currentState h \/ isTransitioning (transition h) = true ->
  transitionTo now target h = h.
Proof.
  intros [Hsame | Hactive]; unfold transitionTo.
  - rewrite bool_decide_eq_true_2 by exact Hsame. reflexivity.
  - rewrite Hactive, orb_true_r. reflexivity.
Qed.

Lemma transitionTo_noop_witness :
  transitionTo 0 resting initialState = initialState
  /\ transitionTo 10 acting (transitionTo 0 thinking initialState)
     = transitionTo 0 thinking initialState.
Proof.
  split.
  - apply (transitionTo_noop 0 resting initialState). left. reflexivity.
  - apply (transitionTo_noop 10 acting (transitionTo 0 thinking initialState)).
    right. reflexivity.
Defined.

Lemma rawProgress_before (now t0 d : R) :
  0 < d -> now - t0 < d ->
  rawProgress now {| startTime := t0; duration := d |} < 1.
Proof.
  intros Hd Hlt. unfold rawProgress; simpl.
  apply Rle_lt_trans with ((now - t0) / d); [apply Rmin_l |].
  apply Rmult_lt_reg_r with d; [exact Hd |].
  unfold Rdiv. rewrite Rmult_assoc, Rinv_l by lra. lra.
Qed.

Lemma rawProgress_after (now t0 d : R) :
  0 < d -> d <= now - t0 ->
  rawProgress now {| startTime := t0; duration := d |} = 1.
Proof.
  intros Hd Hge. unfold rawProgress; simpl.
  apply Rmin_right.
  apply Rmult_le_reg_r with d; [exact Hd |].
  unfold Rdiv. rewrite Rmult_assoc, Rinv_l by lra. lra.
Qed.

Lemma rawProgress_ratio (now t0 d : R) :
  0 < d -> now - t0 <= d ->
  rawProgress now {| startTime := t0; duration := d |} = (now - t0) / d.
Proof.
  intros Hd Hle. unfold rawProgress; simpl.
  apply Rmin_left.
  apply Rmult_le_reg_r with d; [exact Hd |].
  unfold Rdiv. rewrite Rmult_assoc, Rinv_l by lra. lra.
Qed.

Lemma transitionTo_starts (now : R) (target : EntityState) (h : HookState) :
  target <> currentState h -> isTransitioning (transition h) = false ->
  transitionTo now target h =
    {| currentState := currentState h;
       transition := {| from := currentState h; to := target;
                        progress := 0; isTransitioning := true |};
       transitionRef :=
         Some {| startTime := now;
                 duration := getTransitionDuration (currentState h) target |} |}.
Proof.
  intros Hne Hidle. unfold transitionTo.
  rewrite bool_decide_eq_false_2 by exact Hne. rewrite Hidle. reflexivity.
Qed.

Lemma advance_live (now : R) (h : HookState) (r : TransitionRef) :
  isTransitioning (transition h) = true -> transitionRef h = Some r ->
  advance now h = animate now h.
Proof.
  intros Ha Hr. unfold advance. rewrite Ha, Hr.
  rewrite bool_decide_eq_true_2 by (eexists; reflexivity). reflexivity.
Qed.

Lemma advance_before (f t : EntityState) (t0 d now : R) (h : HookState) :
  0 < d -> live f t t0 d h -> now - t0 < d ->
  live f t t0 d (advance now h)
  /\ progress (transition (advance now h))
     = easeInOutCubic (rawProgress now {| startTime := t0; duration := d |}).
Proof.
  intros Hd (Hc & Hf & Ht & Ha & Hr) Hlt.
  rewrite (advance_live now h _ Ha Hr). unfold animate. rewrite Hr.
  pose proof (rawProgress_before now t0 d Hd Hlt) as Hraw.
  destruct (Rge_dec _ 1) as [Hge | _]; [lra |].
  unfold live; simpl. rewrite Hc, Hf, Ht, Ha. repeat split; reflexivity.
Qed.

Lemma advance_after (f t : EntityState) (t0 d now : R) (h : HookState) :
  0 < d -> live f t t0 d h -> d <= now - t0 ->
  advance now h =
    {| currentState := t;
       transition := {| from := f; to := t; progress := 1;
                        isTransitioning := false |};
       transitionRef := None |}.
Proof.
  intros Hd (Hc & Hf & Ht & Ha & Hr) Hge.
  rewrite (advance_live now h _ Ha Hr). unfold animate. rewrite Hr.
  rewrite (rawProgress_after now t0 d Hd Hge).
  destruct (Rge_dec 1 1) as [_ | Hn]; [| lra].
  rewrite Hf, Ht. reflexivity.
Qed.

Lemma advanceAll_before (f t : EntityState) (t0 d : R) (ticks : list R) :
  0 < d -> Forall (fun now => now - t0 < d) ticks ->
  forall h : HookState, live f t t0 d h -> live f t t0 d (advanceAll ticks h).
Proof.
  intros Hd. induction 1 as [| now ticks Hnow _ IH]; intros h Hlive.
  - exact Hlive.
  - simpl. apply IH. apply (advance_before f t t0 d now h Hd Hlive Hnow).
Qed.

(** C1. From an idle engine at [f], [transitionTo t] with [t <> f] makes
    the transition record [from f to t] with progress 0 and [isTransitioning]
    set; after any frames whose elapsed time stays below
    [getTransitionDuration f t] the current state is still [f] and the
    transition is still active; a frame whose elapsed time has reached the
    duration sets the current state to [t], clears [isTransitioning] and pins
    the progress to 1.  From the initial state, [transitionTo thinking] takes
    a 1500 ms duration; the frame at 750 ms has raw progress 0.5 and leaves
    the current state [resting]; the frame at 1500 ms makes it [thinking]
    with [isTransitioning] cleared. *)
Theorem transition_lifecycle :
  (forall (f t : EntityState) (h : HookState) (t0 : R),
      f <> t -> currentState h = f -> isTransitioning (transition h) = false ->
      let d := getTransitionDuration f t in
      let h1 := transitionTo t0 t h in
      currentState h1 = f
      /\ transition h1 =
           {| from := f; to := t; progress := 0; isTransitioning := true |}
      /\ transitionRef h1 = Some {| startTime := t0; duration := d |}
      /\ forall ticks : list R,
           Forall (fun now => now - t0 < d) ticks ->
           let h2 := advanceAll ticks h1 in
           currentState h2 = f
           /\ isTransitioning (transition h2) = true
           /\ forall now : R,
                d <= now - t0 ->
                let h3 := advance now h2 in
                currentState h3 = t
                /\ isTransitioning (transition h3) = false
                /\ progress (transition h3) = 1)
  /\ (forall t0 : R,
        let h1 := transitionTo t0 thinking initialState in
        let h2 := advance (t0 + 750) h1 in
        let h3 := advance (t0 + 1500) h2 in
        transitionRef h1 = Some {| startTime := t0; duration := 1500 |}
        /\ (option_map (rawProgress (t0 + 750)) (transitionRef h1) = Some 0.5
            /\ progress (transition h2) = 0.5
            /\ isTransitioning (transition h2) = true
            /\ currentState h2 = resting)
        /\ (currentState h3 = thinking
            /\ isTransitioning (transition h3) = false)).
Proof.
  split.
  - intros f t h t0 Hne Hc Hidle d h1.
    assert (Hd : 0 < d) by apply getTransitionDuration_pos.
    assert (Hh1 : h1 =
              {| currentState := f;
                 transition := {| from := f; to := t; progress := 0;
                                  isTransitioning := true |};
                 transitionRef := Some {| startTime := t0; duration := d |} |}).
    { subst h1 d. rewrite transitionTo_starts by congruence.
      rewrite Hc. reflexivity. }
    assert (Hlive : live f t t0 d h1)
      by (rewrite Hh1; repeat split; reflexivity).
    split; [rewrite Hh1; reflexivity |].
    split; [rewrite Hh1; reflexivity |].
    split; [rewrite Hh1; reflexivity |].
    intros ticks Hticks h2.
    assert (Hlive2 : live f t t0 d h2)
      by (apply (advanceAll_before f t t0 d ticks Hd Hticks h1 Hlive)).
    split; [apply Hlive2 |]. split; [apply Hlive2 |].
    intros now Hnow h3. subst h3.
    rewrite (advance_after f t t0 d now h2 Hd Hlive2 Hnow).
    repeat split; reflexivity.
  - intros t0 h1 h2 h3.
    assert (Hd : getTransitionDuration resting thinking = 1500)
      by (rewrite getTransitionDuration_cases; reflexivity).
    assert (Hh1 : h1 =
              {| currentState := resting;
                 transition := {| from := resting; to := thinking;
                                  progress := 0; isTransitioning := true |};
                 transitionRef := Some {| startTime := t0; duration := 1500 |} |}).
    { subst h1. rewrite transitionTo_starts by (simpl; congruence).
      simpl. rewrite Hd. reflexivity. }
    assert (Hlive : live resting thinking t0 1500 h1)
      by (rewrite Hh1; repeat split; reflexivity).
    assert (Hraw : rawProgress (t0 + 750) {| startTime := t0; duration := 1500 |}
                   = 0.5).
    { rewrite rawProgress_ratio by lra. lra. }
    destruct (advance_before resting thinking t0 1500 (t0 + 750) h1
                ltac:(lra) Hlive ltac:(lra)) as [Hlive2 Hp2].
    fold h2 in Hlive2, Hp2.
    split; [rewrite Hh1; reflexivity |].
    split.
    + split; [rewrite Hh1; simpl; rewrite Hraw; reflexivity |].
      split; [rewrite Hp2, Hraw; apply easeInOutCubic_half |].
      destruct Hlive2 as (Hc2 & _ & _ & Ha2 & _). split; assumption.
    + subst h3.
      rewrite (advance_after resting thinking t0 1500 (t0 + 1500) h2
                 ltac:(lra) Hlive2 ltac:(lra)).
      split; reflexivity.
Qed.

Lemma transition_lifecycle_witness :
  currentState (transitionTo 0 acting initialState) = resting
  /\ transition (transitionTo 0 acting initialState) =
       {| from := resting; to := acting; progress := 0;
          isTransitioning := true |}
  /\ currentState
       (advanceAll [100; 400; 799] (transitionTo 0 acting initialState))
     = resting
  /\ currentState
       (advance 800
          (advanceAll [100; 400; 799] (transitionTo 0 acting initialState)))
     = acting.
Proof.
  destruct transition_lifecycle as [Hgen _].
  destruct (Hgen resting acting initialState 0) as (Hc & Ht & _ & Hticks).
  { discriminate. }
  { reflexivity. }
  { reflexivity. }
  assert (Hd : getTransitionDuration resting acting = 800)
    by (rewrite getTransitionDuration_cases; reflexivity).
  destruct (Hticks [100; 400; 799]) as (Hc2 & _ & Hdone).
  { rewrite Hd. repeat constructor; lra. }
  destruct (Hdone 800) as (Hc3 & _).
  { rewrite Hd. lra. }
  repeat split; assumption.
Defined.

End EngineFacts.

(** ** Vectors *)

Section VectorFacts.
Import Three.

Lemma sum_squares_nonneg (a b c : R) : 0 <= a * a + b * b + c * c.
Proof. nra. Qed.

Lemma length_nonneg (v : Vector3) : 0 <= length v.
Proof. apply sqrt_pos. Qed.

Lemma length_sqr (v : Vector3) :
  length v * length v = vx v * vx v + vy v * vy v + vz v * vz v.
Proof. apply sqrt_def, sum_squares_nonneg. Qed.

Lemma length_scaled (v : Vector3) (s : R) :
  0 <= s ->
  length {| vx := vx v * s; vy := vy v * s; vz := vz v * s |} = s * length v.
Proof.
  intros Hs. unfold length; simpl.
  replace (vx v * s * (vx v * s) + vy v * s * (vy v * s) + vz v * s * (vz v * s))
    with ((s * s) * (vx v * vx v + vy v * vy v + vz v * vz v)) by ring.
  rewrite sqrt_mult_alt by nra.
  rewrite sqrt_square by exact Hs. reflexivity.
Qed.

Lemma length_vertical (y : R) : 0 <= y -> length (mkVector3 0 y 0) = y.
Proof.
  intros Hy. unfold length; simpl.
  replace (0 * 0 + y * y + 0 * 0) with (y * y) by ring.
  apply sqrt_square, Hy.
Qed.

End VectorFacts.

(** ** The engine keeps its progress between 0 and 1 *)

Section ReachableFacts.
Import Engine.

Lemma wellFormed_transitionTo (now : R) (target : EntityState) (h : HookState) :
  wellFormed h -> wellFormed (transitionTo now target h).
Proof.
  intros Hwf. unfold transitionTo.
  destruct (_ || _); [exact Hwf |].
  split; simpl; [lra |].
  intros r [= <-]. simpl. apply getTransitionDuration_pos.
Qed.

Lemma wellFormed_advance (now : R) (h : HookState) :
  wellFormed h ->
  (forall r, transitionRef h = Some r -> startTime r <= now) ->
  wellFormed (advance now h).
Proof.
  intros Hwf Hclock. pose proof Hwf as [Hp Hd]. unfold advance.
  destruct (_ || _); [exact Hwf |].
  unfold animate. destruct (transitionRef h) as [r |] eqn:Hr;
    [| exact Hwf].
  destruct (Rge_dec _ 1) as [Hge | Hlt]; split; simpl; try lra;
    try discriminate.
  - apply easeInOutCubic_range. unfold rawProgress.
    split; [| apply Rmin_r].
    apply Rmin_glb; [| lra].
    apply Rmult_le_pos; [specialize (Hclock r eq_refl); lra |].
    left. apply Rinv_0_lt_compat, Hd. reflexivity.
  - intros r' [= <-]. apply Hd. reflexivity.
Qed.

Lemma reachable_wellFormed (h : HookState) : reachable h -> wellFormed h.
Proof.
  induction 1 as [| now target h _ IH | now h _ IH Hclock].
  - split; simpl; [lra | discriminate].
  - apply wellFormed_transitionTo, IH.
  - apply wellFormed_advance; assumption.
Qed.

Lemma reachable_progress_range (h : HookState) :
  reachable h -> 0 <= progress (transition h) <= 1.
Proof. intros Hr. apply (reachable_wellFormed h Hr). Qed.

End ReachableFacts.

(** ** The cloud *)

Section NebulaFacts.
Import Engine Three Nebula.

Lemma maxDist_pos (layer : R) : 0 < maxDist layer.
Proof.
  unfold maxDist.
  destruct (Req_dec_T layer 0); [lra |]. destruct (Req_dec_T layer 1); lra.
Qed.

Lemma maxDist_shells : maxDist 0 = 0.8 /\ maxDist 1 = 1.5 /\ maxDist 2 = 2.5.
Proof.
  unfold maxDist. repeat split.
  - destruct (Req_dec_T 0 0); [reflexivity | lra].
  - destruct (Req_dec_T 1 0); [lra |].
    destruct (Req_dec_T 1 1); [reflexivity | lra].
  - destruct (Req_dec_T 2 0); [lra |].
    destruct (Req_dec_T 2 1); [lra | reflexivity].
Qed.

Lemma contraction_range (cs : EntityState) (tr : TransitionState) :
  0 <= progress tr <= 1 -> 0.5 <= contraction cs tr <= 1.
Proof.
  intros Hp. unfold contraction, getInterpolatedValue.
  destruct (isTransitioning tr); simpl.
  - destruct (from tr), (to tr); simpl; nra.
  - destruct cs; simpl; lra.
Qed.

Lemma softBoundary_inside (c layer : R) (p : Vector3) :
  length p <= maxDist layer * c -> softBoundary c layer p = p.
Proof.
  intros Hin. unfold softBoundary. fold (length p).
  destruct (Rgt_dec _ _) as [Hgt | _]; [lra | reflexivity].
Qed.

Lemma softBoundary_outside (c layer : R) (p : Vector3) :
  0 <= c -> maxDist layer * c < length p ->
  length (softBoundary c layer p) = maxDist layer * c * 0.95.
Proof.
  intros Hc Hout. unfold softBoundary. fold (length p).
  destruct (Rgt_dec _ _) as [_ | Hn]; [| lra].
  pose proof (maxDist_pos layer) as Hm.
  assert (HM : 0 <= maxDist layer * c) by (apply Rmult_le_pos; lra).
  assert (Hlen : 0 < length p) by lra.
  rewrite (length_scaled p (maxDist layer * c / length p * 0.95)).
  - field. lra.
  - apply Rmult_le_pos; [| lra].
    apply Rmult_le_pos; [exact HM |]. left. apply Rinv_0_lt_compat, Hlen.
Qed.

Lemma softBoundary_bound (c layer : R) (p : Vector3) :
  0 <= c -> length (softBoundary c layer p) <= maxDist layer * c.
Proof.
  intros Hc.
  destruct (Rle_dec (length p) (maxDist layer * c)) as [Hin | Hout].
  - rewrite softBoundary_inside by exact Hin. exact Hin.
  - rewrite softBoundary_outside by lra.
    pose proof (maxDist_pos layer). nra.
Qed.

Lemma vector_eq (a b : Vector3) :
  vx a = vx b -> vy a = vy b -> vz a = vz b -> a = b.
Proof. destruct a, b; simpl; intros -> -> ->; reflexivity. Qed.

Lemma flowField_near_axis (fs ss layer delta : R) (p : Vector3) :
  horizontalRadius p <= 0.01 -> flowField fs ss layer delta p = p.
Proof.
  intros Hnear. unfold flowField.
  destruct (Rgt_dec _ _) as [Hgt | _]; [lra | reflexivity].
Qed.

Lemma idle_values (a b c : R) (s : EntityState) :
  getInterpolatedValue a b c s (transition initialState) = stateValues a b c s.
Proof. reflexivity. Qed.

(** Where a frame of 16 ms at rest, with the three random readings at one
    half, moves the first particle of the core shell when it is on the
    vertical axis at height [y]: down by [0.01 * 0.3 * 0.016]. *)
Lemma moveParticle_on_axis (y : R) :
  0 < y ->
  moveParticle resting (transition initialState) 0 0.016 0 0
    (0.5, 0.5, 0.5) (mkVector3 0 y 0)
  = mkVector3 0 (y - 0.000048) 0.
Proof.
  intros Hy.
  unfold moveParticle, flowSpeed, chaosAmount, spiralStrength.
  rewrite !idle_values. simpl stateValues.
  rewrite flowField_near_axis.
  2:{ unfold horizontalRadius; simpl.
      replace (0 * 0 + 0 * 0) with 0 by ring. rewrite sqrt_0. lra. }
  unfold oscillate; simpl.
  replace (0 * 2 + 0 * 0.1) with 0 by ring. rewrite sin_0.
  unfold pullToCenter, normalize, divideScalar, multiplyScalar; simpl.
  assert (Hlen : length (mkVector3 (- 0) (- (y + 0 * 0.002 * 0.3)) (- 0)) = y).
  { unfold length; simpl. apply sqrt_lem_1; nra. }
  rewrite Hlen. destruct (Req_dec_T y 0) as [Hz | _]; [lra |].
  assert (Hinv : y * (1 / y) = 1) by (field; lra).
  apply vector_eq; simpl; nra.
Qed.

Lemma idle_core_bound :
  maxDist 0 * contraction resting (transition initialState) = 0.8.
Proof.
  destruct maxDist_shells as (-> & _). unfold contraction.
  rewrite idle_values. simpl. lra.
Qed.

(** Where the particle at height 0.78 on the vertical axis of the core shell
    is stored by such a frame. *)
Lemma particle_on_axis_stored :
  updateParticle resting (transition initialState) 0 0.016 0 0
    (0.5, 0.5, 0.5) (mkVector3 0 0.78 0)
  = mkVector3 0 0.779952 0.
Proof.
  unfold updateParticle. rewrite moveParticle_on_axis by lra.
  replace (0.78 - 0.000048) with 0.779952 by lra.
  apply softBoundary_inside.
  rewrite length_vertical, idle_core_bound; lra.
Qed.

(** C6. After a frame, in every state the engine can reach, every particle
    is within [maxDist layer * contraction] of the origin, wherever it was
    before the frame: the soft boundary is the last thing done to the
    position that is stored.  The largest distances are 0.8 for the core
    shell, 1.5 for the middle one and 2.5 for the edge. *)
Theorem cloud_containment (h : HookState) :
  reachable h ->
  let cs := currentState h in
  let tr := transition h in
  (maxDist 0 = 0.8 /\ maxDist 1 = 1.5 /\ maxDist 2 = 2.5)
  /\ (forall (time delta : R) (i : nat) (layer : R) (rnd : R * R * R)
             (p : Vector3),
        updateParticle cs tr time delta i layer rnd p
        = softBoundary (contraction cs tr) layer
            (moveParticle cs tr time delta i layer rnd p)
        /\ length (updateParticle cs tr time delta i layer rnd p)
           <= maxDist layer * contraction cs tr)
  /\ (forall (time delta : R) (layers : list R) (rand : nat -> R * R * R)
             (positions : list Vector3) (i : nat) (p' : Vector3),
        useFrame cs tr time delta layers rand positions !! i = Some p' ->
        length p' <= maxDist (default 0 (layers !! i)) * contraction cs tr).
Proof.
  intros Hreach cs tr.
  assert (Hc : 0 <= contraction cs tr).
  { pose proof (contraction_range cs tr (reachable_progress_range h Hreach)).
    lra. }
  split; [exact maxDist_shells |]. split.
  - intros. split; [reflexivity |]. apply softBoundary_bound, Hc.
  - intros time delta layers rand positions i p' Hi.
    unfold useFrame in Hi. rewrite list_lookup_imap in Hi.
    destruct (positions !! i) as [p |]; [| discriminate].
    injection Hi as <-. apply softBoundary_bound, Hc.
Qed.

Lemma cloud_containment_witness :
  length (updateParticle resting (transition initialState) 0 0.016 0 0
            (0.5, 0.5, 0.5) (mkVector3 3 4 0))
  <= maxDist 0 * contraction resting (transition initialState).
Proof.
  destruct (cloud_containment initialState reachable_initial) as (_ & Hone & _).
  apply (Hone 0 0.016 0%nat 0 (0.5, 0.5, 0.5) (mkVector3 3 4 0)).
Defined.

(** C5, as the code has it.  In every state the engine can reach, a particle
    that the frame has moved to within [maxDist layer * contraction] of the
    origin is stored there, so that its distance can be anything up to that
    bound; a particle moved beyond the bound is stored at distance
    [maxDist layer * contraction * 0.95], which is below the 0.951 margin.
    In both cases the stored distance is at most
    [maxDist layer * contraction]. *)
Theorem cloud_soft_clamp (h : HookState) (time delta : R) (i : nat)
    (layer : R) (rnd : R * R * R) (p : Vector3) :
  reachable h ->
  let cs := currentState h in
  let tr := transition h in
  let bound := maxDist layer * contraction cs tr in
  let moved := moveParticle cs tr time delta i layer rnd p in
  let stored := updateParticle cs tr time delta i layer rnd p in
  (length moved <= bound -> stored = moved)
  /\ (bound < length moved ->
      length stored = bound * 0.95 /\ length stored <= bound * 0.951)
  /\ length stored <= bound.
Proof.
  intros Hreach cs tr bound moved stored.
  assert (Hc : 0 <= contraction cs tr).
  { pose proof (contraction_range cs tr (reachable_progress_range h Hreach)).
    lra. }
  assert (Hb : 0 <= bound).
  { apply Rmult_le_pos; [left; apply maxDist_pos | exact Hc]. }
  split; [| split].
  - intros Hin. apply softBoundary_inside, Hin.
  - intros Hout.
    assert (Hlen : length stored = bound * 0.95)
      by (apply softBoundary_outside; assumption).
    split; [exact Hlen | lra].
  - apply softBoundary_bound, Hc.
Qed.

Lemma cloud_soft_clamp_witness :
  length (updateParticle resting (transition initialState) 0 0.016 0 0
            (0.5, 0.5, 0.5) (mkVector3 0 5 0))
  = maxDist 0 * contraction resting (transition initialState) * 0.95.
Proof.
  destruct (cloud_soft_clamp initialState 0 0.016 0%nat 0 (0.5, 0.5, 0.5)
              (mkVector3 0 5 0) reachable_initial) as (_ & Hout & _).
  apply Hout.
  change (maxDist 0 * contraction resting (transition initialState)
          < length (moveParticle resting (transition initialState) 0 0.016 0
                      0 (0.5, 0.5, 0.5) (mkVector3 0 5 0))).
  rewrite moveParticle_on_axis, length_vertical, idle_core_bound; lra.
Defined.

(** C5, as the spec states it, fails: at rest, a core particle at height 0.78
    on the vertical axis is stored at distance 0.779952 from the origin,
    which is more than [0.8 * 1 * 0.951 = 0.7608]. *)
Lemma cloud_margin_counterexample :
  reachable initialState
  /\ ~ (length (updateParticle resting (transition initialState) 0 0.016 0 0
                  (0.5, 0.5, 0.5) (mkVector3 0 0.78 0))
        <= maxDist 0 * contraction resting (transition initialState) * 0.951).
Proof.
  split; [exact reachable_initial |].
  rewrite particle_on_axis_stored, length_vertical, idle_core_bound; lra.
Qed.

End NebulaFacts.

(** ** [atan2] gives the direction of a point *)

Section Atan2Facts.

Lemma cos_sin_sqr (a : R) : cos a * cos a + sin a * sin a = 1.
Proof. pose proof (sin2_cos2 a) as H. unfold Rsqr in H. lra. Qed.

Lemma polar_radius (a r : R) :
  0 <= r -> sqrt (cos a * r * (cos a * r) + sin a * r * (sin a * r)) = r.
Proof.
  intros Hr. apply sqrt_lem_1; [| exact Hr |].
  - nra.
  - pose proof (cos_sin_sqr a). nra.
Qed.

Lemma sqrt_one_plus_sqr (x z : R) :
  x <> 0 -> sqrt (1 + (z / x)²) = sqrt (x * x + z * z) / Rabs x.
Proof.
  intros Hx.
  assert (Hax : 0 < Rabs x) by (apply Rabs_pos_lt, Hx).
  assert (Hd : 0 <= sqrt (x * x + z * z)) by apply sqrt_pos.
  apply sqrt_lem_1.
  - unfold Rsqr. assert (0 <= z / x * (z / x)) by nra. lra.
  - apply Rmult_le_pos; [exact Hd | left; apply Rinv_0_lt_compat, Hax].
  - unfold Rsqr.
    replace (sqrt (x * x + z * z) / Rabs x * (sqrt (x * x + z * z) / Rabs x))
      with (sqrt (x * x + z * z) * sqrt (x * x + z * z) / (Rabs x * Rabs x))
      by (field; lra).
    rewrite sqrt_def by nra.
    replace (Rabs x * Rabs x) with (x * x)
      by (unfold Rabs; destruct (Rcase_abs x); ring).
    field. exact Hx.
Qed.

(** The cosine and the sine of [atan2 z x] are the coordinates of the point
    [(x, z)] divided by its distance from the origin. *)
Lemma atan2_direction (x z : R) :
  let dist := sqrt (x * x + z * z) in
  0 < dist ->
  cos (atan2 z x) = x / dist /\ sin (atan2 z x) = z / dist.
Proof.
  intros dist Hdist. unfold atan2.
  destruct (Rlt_dec 0 x) as [Hpos | Hnpos].
  - rewrite cos_atan, sin_atan, sqrt_one_plus_sqr by lra.
    fold dist. rewrite Rabs_right by lra. split; field; lra.
  - destruct (Rlt_dec x 0) as [Hneg | Hnneg].
    + assert (Hc : cos (atan (z / x)) = - x / dist).
      { rewrite cos_atan, sqrt_one_plus_sqr by lra. fold dist.
        rewrite Rabs_left by lra. field; lra. }
      assert (Hs : sin (atan (z / x)) = - z / dist).
      { rewrite sin_atan, sqrt_one_plus_sqr by lra. fold dist.
        rewrite Rabs_left by lra. field; lra. }
      destruct (Rle_dec 0 z).
      * rewrite neg_cos, neg_sin, Hc, Hs. split; field; lra.
      * replace (atan (z / x) - PI) with (- (- atan (z / x) + PI)) by ring.
        rewrite cos_neg, sin_neg, neg_cos, neg_sin, cos_neg, sin_neg, Hc, Hs.
        split; field; lra.
    + assert (Hx : x = 0) by lra. subst x.
      assert (Hd : dist = Rabs z).
      { unfold dist. replace (0 * 0 + z * z) with (Rsqr z)
          by (unfold Rsqr; ring). apply sqrt_Rsqr_abs. }
      destruct (Rlt_dec 0 z) as [Hz | Hnz].
      * rewrite cos_PI2, sin_PI2, Hd, Rabs_right by lra. split; field; lra.
      * destruct (Rlt_dec z 0) as [Hz | Hnz'].
        -- rewrite cos_neg, sin_neg, cos_PI2, sin_PI2, Hd, Rabs_left by lra.
           split; field; lra.
        -- assert (z = 0) by lra. subst z. rewrite Rabs_R0 in Hd. lra.
Qed.

End Atan2Facts.

(** *** The flow field *)

Section FlowFacts.
Import Engine Three Nebula.

Lemma newDist_floor (ss layer delta dist : R) :
  0.1 <= newDist ss layer delta dist.
Proof. unfold newDist. apply Rmax_l. Qed.

Lemma newDist_pulled (ss layer delta dist : R) :
  0.1 <= dist - ss * delta * (layer + 1) * 0.1 ->
  newDist ss layer delta dist = dist - ss * delta * (layer + 1) * 0.1.
Proof. intros H. unfold newDist. apply Rmax_right. lra. Qed.

Lemma flowField_far (fs ss layer delta : R) (p : Vector3) :
  0.01 < horizontalRadius p ->
  flowField fs ss layer delta p =
    {| vx := cos (atan2 (vz p) (vx p) + rotSpeed fs layer delta)
             * newDist ss layer delta (horizontalRadius p);
       vy := vy p;
       vz := sin (atan2 (vz p) (vx p) + rotSpeed fs layer delta)
             * newDist ss layer delta (horizontalRadius p) |}.
Proof.
  intros Hfar. unfold flowField.
  destruct (Rgt_dec _ _) as [_ | Hn]; [reflexivity | lra].
Qed.

Lemma flowField_radius (fs ss layer delta : R) (p : Vector3) :
  0.01 < horizontalRadius p ->
  horizontalRadius (flowField fs ss layer delta p)
  = newDist ss layer delta (horizontalRadius p).
Proof.
  intros Hfar. rewrite flowField_far by exact Hfar.
  unfold horizontalRadius at 1; simpl. apply polar_radius.
  pose proof (newDist_floor ss layer delta (horizontalRadius p)). lra.
Qed.

(** C8, as the code has it.  The flow step touches only particles whose
    horizontal radius [dist] is above 0.01: for those the direction of the
    horizontal position turns by [flowSpeed * (0.5 + layer * 0.3) * dt] and
    the horizontal radius becomes
    [max 0.1 (dist - spiralStrength * dt * (layer + 1) * 0.1)], which is the
    pulled-in radius as long as that is at least 0.1; a particle with
    [dist <= 0.01] is left where it is.  The height always gains
    [sin (time * 2 + i * 0.1) * 0.002 * flowSpeed].  These two steps come
    before the pull to the center, the jitter and the soft boundary. *)
Theorem cloud_flow_step (cs : EntityState) (tr : TransitionState)
    (time delta : R) (i : nat) (layer : R) (rnd : R * R * R) (p : Vector3) :
  let fs := flowSpeed cs tr in
  let ss := spiralStrength cs tr in
  let dist := horizontalRadius p in
  let rot := fs * (0.5 + layer * 0.3) * delta in
  let pulled := dist - ss * delta * (layer + 1) * 0.1 in
  let flowed := flowField fs ss layer delta p in
  (0.01 < dist ->
     horizontalRadius flowed = Rmax 0.1 pulled
     /\ vx flowed
        = horizontalRadius flowed
          * (cos rot * (vx p / dist) - sin rot * (vz p / dist))
     /\ vz flowed
        = horizontalRadius flowed
          * (sin rot * (vx p / dist) + cos rot * (vz p / dist))
     /\ vy flowed = vy p
     /\ (0.1 <= pulled ->
         horizontalRadius flowed = pulled
         /\ flowed = flowFieldAsSpecified fs ss layer delta p))
  /\ (dist <= 0.01 -> flowed = p)
  /\ oscillate fs time i flowed
     = {| vx := vx flowed;
          vy := vy p + sin (time * 2 + INR i * 0.1) * 0.002 * fs;
          vz := vz flowed |}
  /\ updateParticle cs tr time delta i layer rnd p
     = softBoundary (contraction cs tr) layer
         (addChaos (chaosAmount cs tr) rnd
            (pullToCenter fs delta (oscillate fs time i flowed))).
Proof.
  intros fs ss dist rot pulled flowed.
  split; [| split; [| split]].
  - intros Hfar.
    assert (Hrad : horizontalRadius flowed = newDist ss layer delta dist)
      by (apply flowField_radius, Hfar).
    assert (Hflow := flowField_far fs ss layer delta p Hfar).
    fold flowed dist in Hflow.
    destruct (atan2_direction (vx p) (vz p)) as [Hcos Hsin].
    { fold (horizontalRadius p). fold dist. lra. }
    fold (horizontalRadius p) in Hcos, Hsin. fold dist in Hcos, Hsin.
    split; [exact Hrad |].
    split; [| split; [| split; [| intros Hpulled; split]]].
    + rewrite Hrad, Hflow; simpl. unfold rotSpeed. fold rot.
      rewrite cos_plus, Hcos, Hsin. ring.
    + rewrite Hrad, Hflow; simpl. unfold rotSpeed. fold rot.
      rewrite sin_plus, Hcos, Hsin. ring.
    + rewrite Hflow. reflexivity.
    + rewrite Hrad. apply newDist_pulled, Hpulled.
    + rewrite Hflow. unfold flowFieldAsSpecified, rotSpeed.
      fold dist. rewrite (newDist_pulled ss layer delta dist Hpulled).
      reflexivity.
  - intros Hnear. apply flowField_near_axis, Hnear.
  - unfold oscillate. f_equal. f_equal.
    unfold flowed, flowField. destruct (Rgt_dec _ _); reflexivity.
  - reflexivity.
Qed.

Lemma cloud_flow_step_witness :
  horizontalRadius
    (flowField (flowSpeed acting (transition initialState))
       (spiralStrength acting (transition initialState)) 1 0.5
       (mkVector3 3 7 4))
  = 5 - 0.6 * 0.5 * (1 + 1) * 0.1
  /\ flowField (flowSpeed resting (transition initialState))
       (spiralStrength resting (transition initialState)) 0 0.016
       (mkVector3 0 1 0)
     = mkVector3 0 1 0.
Proof.
  assert (Hdist : horizontalRadius (mkVector3 3 7 4) = 5).
  { unfold horizontalRadius; simpl. apply sqrt_lem_1; lra. }
  destruct (cloud_flow_step acting (transition initialState) 0 0.5 0%nat 1
              (0.5, 0.5, 0.5) (mkVector3 3 7 4)) as (Hfar & _).
  destruct (cloud_flow_step resting (transition initialState) 0 0.016 0%nat 0
              (0.5, 0.5, 0.5) (mkVector3 0 1 0)) as (_ & Hnear & _).
  split.
  - destruct Hfar as (_ & _ & _ & _ & Hpulled).
    + rewrite Hdist. lra.
    + destruct Hpulled as [Hrad _].
      * rewrite Hdist. unfold spiralStrength. rewrite idle_values. simpl. lra.
      * rewrite Hrad, Hdist.
        unfold spiralStrength. rewrite idle_values. reflexivity.
  - apply Hnear. unfold horizontalRadius; simpl.
    replace (0 * 0 + 0 * 0) with 0 by ring. rewrite sqrt_0. lra.
Defined.

(** C8, as the spec states it, fails in two ways.  At rest, a core particle
    at horizontal radius 0.05 is pushed out to radius 0.1, where the spec
    has it stay at [0.05 - 0]; and a core particle at horizontal radius
    0.005 is not turned at all, where the spec has its angle advance by
    [0.3 * 0.5 * 0.016]. *)
Lemma cloud_flow_counterexample :
  (horizontalRadius
     (flowField (flowSpeed resting (transition initialState))
        (spiralStrength resting (transition initialState)) 0 0.016
        (mkVector3 0.05 0 0)) = 0.1
   /\ horizontalRadius
        (flowFieldAsSpecified (flowSpeed resting (transition initialState))
           (spiralStrength resting (transition initialState)) 0 0.016
           (mkVector3 0.05 0 0)) = 0.05
   /\ flowField (flowSpeed resting (transition initialState))
        (spiralStrength resting (transition initialState)) 0 0.016
        (mkVector3 0.05 0 0)
      <> flowFieldAsSpecified (flowSpeed resting (transition initialState))
           (spiralStrength resting (transition initialState)) 0 0.016
           (mkVector3 0.05 0 0))
  /\ (vz (flowField (flowSpeed resting (transition initialState))
             (spiralStrength resting (transition initialState)) 0 0.016
             (mkVector3 0.005 0 0)) = 0
      /\ 0 < vz (flowFieldAsSpecified
                   (flowSpeed resting (transition initialState))
                   (spiralStrength resting (transition initialState)) 0 0.016
                   (mkVector3 0.005 0 0))
      /\ flowField (flowSpeed resting (transition initialState))
           (spiralStrength resting (transition initialState)) 0 0.016
           (mkVector3 0.005 0 0)
         <> flowFieldAsSpecified (flowSpeed resting (transition initialState))
              (spiralStrength resting (transition initialState)) 0 0.016
              (mkVector3 0.005 0 0)).
Proof.
  assert (Hfs : flowSpeed resting (transition initialState) = 0.3)
    by reflexivity.
  assert (Hss : spiralStrength resting (transition initialState) = 0)
    by (unfold spiralStrength; rewrite idle_values; simpl; lra).
  rewrite Hfs, Hss.
  assert (Hr1 : horizontalRadius (mkVector3 0.05 0 0) = 0.05).
  { unfold horizontalRadius; simpl. apply sqrt_lem_1; lra. }
  assert (Hr2 : horizontalRadius (mkVector3 0.005 0 0) = 0.005).
  { unfold horizontalRadius; simpl. apply sqrt_lem_1; lra. }
  assert (Hcode1 :
    horizontalRadius (flowField 0.3 0 0 0.016 (mkVector3 0.05 0 0)) = 0.1).
  { rewrite flowField_radius by (rewrite Hr1; lra).
    rewrite Hr1. unfold newDist. apply Rmax_left. lra. }
  assert (Hspec1 :
    horizontalRadius (flowFieldAsSpecified 0.3 0 0 0.016 (mkVector3 0.05 0 0))
    = 0.05).
  { unfold flowFieldAsSpecified. rewrite Hr1.
    unfold horizontalRadius; simpl.
    replace (0.05 - 0 * 0.016 * (0 + 1) * 0.1) with 0.05 by lra.
    apply polar_radius. lra. }
  assert (Hcode2 : vz (flowField 0.3 0 0 0.016 (mkVector3 0.005 0 0)) = 0).
  { rewrite flowField_near_axis by (rewrite Hr2; lra). reflexivity. }
  assert (Hspec2 :
    0 < vz (flowFieldAsSpecified 0.3 0 0 0.016 (mkVector3 0.005 0 0))).
  { unfold flowFieldAsSpecified. rewrite Hr2. simpl.
    assert (Hangle : atan2 0 0.005 = 0).
    { unfold atan2. destruct (Rlt_dec 0 0.005); [| lra].
      replace (0 / 0.005) with 0 by lra. apply atan_0. }
    rewrite Hangle.
    assert (0 < sin (0 + 0.3 * (0.5 + 0 * 0.3) * 0.016)).
    { apply sin_gt_0; [lra |]. pose proof PI2_1. lra. }
    nra. }
  split; (split; [assumption | split; [assumption |]]).
  - intros Heq. rewrite Heq in Hcode1. lra.
  - intros Heq. rewrite Heq in Hcode2. lra.
Qed.

End FlowFacts.

(** ** The rings *)

Section OphanimFacts.
Import Engine Three Ophanim.

Lemma distanceFromAxis_unit (a p : Vector3) :
  dot a a = 1 ->
  distanceFromAxis a p = sqrt (dot p p - dot p a * dot p a).
Proof.
  unfold distanceFromAxis, length, dot; simpl. intros Ha.
  f_equal. nsatz.
Qed.

(** A turn about the unit axis [a] keeps the component along [a] and the
    length of every vector. *)
Lemma applyQuaternion_axisAngle (a p : Vector3) (angle : R) :
  dot a a = 1 ->
  let p' := applyQuaternion (setFromAxisAngle a angle) p in
  dot p' a = dot p a /\ dot p' p' = dot p p.
Proof.
  unfold dot, applyQuaternion, setFromAxisAngle; simpl. intros Ha.
  pose proof (cos_sin_sqr (angle / 2)) as Hcs.
  set (s := sin (angle / 2)) in *. set (c := cos (angle / 2)) in *.
  split; nsatz.
Qed.

Lemma applyQuaternion_distance (a p : Vector3) (angle : R) :
  dot a a = 1 ->
  distanceFromAxis a (applyQuaternion (setFromAxisAngle a angle) p)
  = distanceFromAxis a p.
Proof.
  intros Ha. rewrite !distanceFromAxis_unit by exact Ha.
  destruct (applyQuaternion_axisAngle a p angle Ha) as [-> ->]. reflexivity.
Qed.

Lemma applyMatrix4_rotation (q : Quaternion) (v : Vector3) :
  let x := qx q in let y := qy q in let z := qz q in let w := qw q in
  applyMatrix4 (makeRotationFromQuaternion q) v =
    {| vx := (1 - 2 * (y * y + z * z)) * vx v + 2 * (x * y - w * z) * vy v
             + 2 * (x * z + w * y) * vz v;
       vy := 2 * (x * y + w * z) * vx v + (1 - 2 * (x * x + z * z)) * vy v
             + 2 * (y * z - w * x) * vz v;
       vz := 2 * (x * z - w * y) * vx v + 2 * (y * z + w * x) * vy v
             + (1 - 2 * (x * x + y * y)) * vz v |}.
Proof.
  intros x y z w. subst x y z w.
  unfold applyMatrix4, makeRotationFromQuaternion.
  apply vector_eq; simpl; field; lra.
Qed.

Lemma EPSILON_pos : 0 < EPSILON.
Proof. unfold EPSILON. apply Rinv_0_lt_compat, pow_lt. lra. Qed.

Lemma EPSILON_le_1 : EPSILON <= 1.
Proof.
  unfold EPSILON. apply Rle_trans with (/ 1); [| rewrite Rinv_1; lra].
  apply Rinv_le_contravar; [lra |]. apply pow_R1_Rle. lra.
Qed.

(** The quaternion that takes [up] to the unit vector [a], when the two are
    not opposite: its components are those of
    [(a.z, 0, - a.x, a.y + 1)] divided by the length [sqrt (2 (a.y + 1))]. *)
Lemma setFromUnitVectors_up (a : Vector3) :
  dot a a = 1 -> EPSILON <= dot (mkVector3 0 1 0) a + 1 ->
  exists l : R,
    l * l * (2 * (vy a + 1)) = 1
    /\ setFromUnitVectors (mkVector3 0 1 0) a
       = {| qx := vz a * l; qy := 0; qz := - vx a * l; qw := (vy a + 1) * l |}.
Proof.
  intros Ha Hr. pose proof EPSILON_pos as Heps.
  unfold setFromUnitVectors.
  destruct (Rlt_dec _ EPSILON) as [Hlt | _]; [lra |].
  unfold dot in Ha, Hr |- *; simpl in Ha, Hr |- *.
  assert (Hy : 0 < vy a + 1) by lra.
  set (q0 := {| qx := 1 * vz a - 0 * vy a; qy := 0 * vx a - 0 * vz a;
                qz := 0 * vy a - 1 * vx a;
                qw := 0 * vx a + 1 * vy a + 0 * vz a + 1 |}).
  assert (Hsq : qlength q0 * qlength q0 = 2 * (vy a + 1)).
  { unfold qlength. rewrite sqrt_def; simpl; nra. }
  assert (Hlen : qlength q0 <> 0) by nra.
  exists (1 / qlength q0). split.
  - replace (1 / qlength q0 * (1 / qlength q0) * (2 * (vy a + 1)))
      with (2 * (vy a + 1) / (qlength q0 * qlength q0)) by (field; exact Hlen).
    rewrite Hsq. field. lra.
  - unfold qnormalize. destruct (Req_dec_T (qlength q0) 0) as [Hz | _];
      [contradiction |].
    simpl. f_equal; ring.
Qed.

Lemma basePosition_distance (config : RingConfig) (i : nat) :
  dot (axis config) (axis config) = 1 ->
  EPSILON <= dot (mkVector3 0 1 0) (axis config) + 1 ->
  0 <= radius config ->
  distanceFromAxis (axis config) (basePosition config i) = radius config.
Proof.
  intros Ha Hr Hrad.
  destruct (setFromUnitVectors_up (axis config) Ha Hr) as (l & Hl & Hq).
  rewrite distanceFromAxis_unit by exact Ha.
  unfold basePosition, ringMatrix. rewrite Hq, applyMatrix4_rotation.
  set (angle := INR i / INR PARTICLES_PER_RING * PI * 2).
  pose proof (cos_sin_sqr angle) as Hcs.
  set (c := cos angle) in *. set (s := sin angle) in *.
  destruct (axis config) as [ax ay az]. unfold dot in *; simpl in *.
  match goal with
  | |- sqrt ?e = _ =>
      assert (He : e = radius config * radius config) by nsatz
  end.
  rewrite He. apply sqrt_square, Hrad.
Qed.

Lemma normalize_unit (v : Vector3) :
  length v <> 0 -> dot (normalize v) (normalize v) = 1.
Proof.
  intros Hlen. unfold normalize.
  destruct (Req_dec_T (length v) 0) as [Hz | _]; [contradiction |].
  pose proof (length_sqr v) as Hsq.
  unfold dot, divideScalar, multiplyScalar; simpl.
  replace (vx v * (1 / length v) * (vx v * (1 / length v))
           + vy v * (1 / length v) * (vy v * (1 / length v))
           + vz v * (1 / length v) * (vz v * (1 / length v)))
    with ((vx v * vx v + vy v * vy v + vz v * vz v) / (length v * length v))
    by (field; exact Hlen).
  rewrite <- Hsq. field. exact Hlen.
Qed.

Lemma length_diagonal : length (mkVector3 1 1 0) = sqrt 2.
Proof. unfold length; simpl. f_equal. ring. Qed.

(** The four configured rings have a unit axis that is not opposite to [up],
    and a radius that is not negative. *)
Lemma RING_CONFIGS_sound (config : RingConfig) :
  In config RING_CONFIGS ->
  dot (axis config) (axis config) = 1
  /\ EPSILON <= dot (mkVector3 0 1 0) (axis config) + 1
  /\ 0 <= radius config.
Proof.
  pose proof EPSILON_le_1 as Heps.
  assert (Hsqrt2 : 0 < sqrt 2) by (apply sqrt_lt_R0; lra).
  intros [<- | [<- | [<- | [<- | []]]]]; simpl.
  - unfold dot; simpl. repeat split; lra.
  - unfold dot; simpl. repeat split; lra.
  - unfold dot; simpl. repeat split; lra.
  - split; [apply normalize_unit; rewrite length_diagonal; lra |].
    split; [| lra].
    unfold normalize. rewrite length_diagonal.
    destruct (Req_dec_T (sqrt 2) 0) as [Hz | _]; [lra |].
    unfold dot, divideScalar, multiplyScalar; simpl.
    assert (0 < 1 / sqrt 2) by (apply Rdiv_lt_0_compat; lra).
    lra.
Qed.

Lemma useFrame_distance (config : RingConfig) (cs : EntityState)
    (tr : TransitionState) (delta : R) (positions : list Vector3) :
  dot (axis config) (axis config) = 1 ->
  Forall2 (fun p p' =>
             distanceFromAxis (axis config) p'
             = distanceFromAxis (axis config) p)
          positions (useFrame config cs tr delta positions).
Proof.
  intros Ha. unfold useFrame.
  induction positions as [| p positions IH]; simpl; constructor.
  - apply applyQuaternion_distance, Ha.
  - exact IH.
Qed.

Lemma useFrame_onRing (config : RingConfig) (cs : EntityState)
    (tr : TransitionState) (delta : R) (positions : list Vector3) :
  dot (axis config) (axis config) = 1 ->
  onRing config positions ->
  onRing config (useFrame config cs tr delta positions).
Proof.
  intros Ha Hon. unfold onRing, useFrame in *.
  induction Hon as [| p positions Hp _ IH]; simpl; constructor.
  - rewrite applyQuaternion_distance by exact Ha. exact Hp.
  - exact IH.
Qed.

Lemma runFrames_onRing (config : RingConfig)
    (frames : list (EntityState * TransitionState * R)) :
  dot (axis config) (axis config) = 1 ->
  forall positions : list Vector3,
    onRing config positions -> onRing config (runFrames config frames positions).
Proof.
  intros Ha. unfold runFrames.
  induction frames as [| [[cs tr] delta] frames IH]; intros positions Hon.
  - exact Hon.
  - simpl. apply IH, useFrame_onRing; assumption.
Qed.

Lemma basePositions_onRing (config : RingConfig) :
  dot (axis config) (axis config) = 1 ->
  EPSILON <= dot (mkVector3 0 1 0) (axis config) + 1 ->
  0 <= radius config ->
  onRing config (basePositions config).
Proof.
  intros Ha Hr Hrad. unfold onRing, basePositions.
  apply Forall_map, Forall_forall. intros i _.
  apply basePosition_distance; assumption.
Qed.

(** C7. Every particle of a configured ring is built at distance [radius]
    from the axis of the ring; for the axis (1, 0, 0) and the radius 2.0 that
    distance is 2.0.  A frame, which turns every stored position about the
    axis of the ring, leaves the distance of every particle from that axis
    as it was, so every particle of a ring is at distance [radius] from the
    axis after any number of frames. *)
Theorem ring_distance_preserved :
  (forall (speed phase : R) (i : nat),
      let config := {| axis := mkVector3 1 0 0; radius := 2.0;
                       speed := speed; phase := phase |} in
      distanceFromAxis (mkVector3 1 0 0) (basePosition config i) = 2.0)
  /\ (forall config : RingConfig,
        In config RING_CONFIGS -> onRing config (basePositions config))
  /\ (forall (config : RingConfig) (cs : EntityState) (tr : TransitionState)
              (delta : R) (positions : list Vector3),
        dot (axis config) (axis config) = 1 ->
        Forall2 (fun p p' =>
                   distanceFromAxis (axis config) p'
                   = distanceFromAxis (axis config) p)
                positions (useFrame config cs tr delta positions))
  /\ (forall (config : RingConfig)
              (frames : list (EntityState * TransitionState * R)),
        In config RING_CONFIGS ->
        onRing config (runFrames config frames (basePositions config))).
Proof.
  split; [| split; [| split]].
  - intros speed phase i config.
    apply (basePosition_distance config i); simpl.
    + unfold dot; simpl. lra.
    + unfold dot; simpl. pose proof EPSILON_le_1. lra.
    + lra.
  - intros config Hin.
    destruct (RING_CONFIGS_sound config Hin) as (Ha & Hr & Hrad).
    apply basePositions_onRing; assumption.
  - intros config cs tr delta positions Ha. apply useFrame_distance, Ha.
  - intros config frames Hin.
    destruct (RING_CONFIGS_sound config Hin) as (Ha & Hr & Hrad).
    apply runFrames_onRing; [exact Ha |].
    apply basePositions_onRing; assumption.
Qed.

Lemma ring_distance_preserved_witness :
  onRing (mkRingConfig (mkVector3 0 0 1) 1.6 0.9 (PI / 2))
    (basePositions (mkRingConfig (mkVector3 0 0 1) 1.6 0.9 (PI / 2)))
  /\ Forall2 (fun p p' =>
                distanceFromAxis (mkVector3 0 0 1) p'
                = distanceFromAxis (mkVector3 0 0 1) p)
             [mkVector3 1 2 3]
             (useFrame (mkRingConfig (mkVector3 0 0 1) 1.6 0.9 (PI / 2))
                acting (transition initialState) 0.016 [mkVector3 1 2 3])
  /\ onRing (mkRingConfig (mkVector3 0 0 1) 1.6 0.9 (PI / 2))
       (runFrames (mkRingConfig (mkVector3 0 0 1) 1.6 0.9 (PI / 2))
          [(resting, transition initialState, 0.016)]
          (basePositions (mkRingConfig (mkVector3 0 0 1) 1.6 0.9 (PI / 2)))).
Proof.
  destruct ring_distance_preserved as (_ & Hbuilt & Hframe & Hrun).
  assert (Hin : In (mkRingConfig (mkVector3 0 0 1) 1.6 0.9 (PI / 2))
                   RING_CONFIGS)
    by (right; right; left; reflexivity).
  split; [apply (Hbuilt _ Hin) |].
  split; [| apply (Hrun _ _ Hin)].
  apply (Hframe (mkRingConfig (mkVector3 0 0 1) 1.6 0.9 (PI / 2)) acting
           (transition initialState) 0.016).
  unfold dot; simpl. lra.
Defined.

End OphanimFacts.

(** * Further properties *)

(** ** The state engine *)

Section EngineMore.
Import Engine.

Lemma consistent_transitionTo (now : R) (target : EntityState) (h : HookState) :
  consistent h -> consistent (transitionTo now target h).
Proof.
  intros Hc. unfold transitionTo.
  destruct (bool_decide (target = currentState h)) eqn:Htarget; simpl;
    [exact Hc |].
  destruct (isTransitioning (transition h)) eqn:Hactive; [exact Hc |].
  apply bool_decide_eq_false_1 in Htarget.
  unfold consistent; simpl.
  split; [reflexivity |]. split; [exact Htarget |].
  exists now. reflexivity.
Qed.

Lemma advance_idle (now : R) (h : HookState) :
  isTransitioning (transition h) = false -> advance now h = h.
Proof. intros Hidle. unfold advance. rewrite Hidle. reflexivity. Qed.

Lemma advance_no_ref (now : R) (h : HookState) :
  transitionRef h = None -> advance now h = h.
Proof.
  intros Hr. unfold advance. rewrite Hr.
  destruct (isTransitioning (transition h)); reflexivity.
Qed.

Lemma transitionTo_active (now : R) (target : EntityState) (h : HookState) :
  isTransitioning (transition h) = true -> transitionTo now target h = h.
Proof.
  intros Hactive. unfold transitionTo. rewrite Hactive, orb_true_r. reflexivity.
Qed.

Lemma consistent_advance (now : R) (h : HookState) :
  consistent h -> consistent (advance now h).
Proof.
  intros Hc.
  destruct (isTransitioning (transition h)) eqn:Hactive.
  2:{ rewrite advance_idle by exact Hactive. exact Hc. }
  pose proof Hc as Hc'. unfold consistent in Hc'. rewrite Hactive in Hc'.
  destruct Hc' as (Hfrom & Hto & t0 & Href).
  rewrite (advance_live now h _ Hactive Href). unfold animate. rewrite Href.
  destruct (Rge_dec _ 1); unfold consistent; simpl.
  - repeat split; reflexivity.
  - rewrite Hactive. split; [exact Hfrom |]. split; [exact Hto |].
    exists t0. reflexivity.
Qed.

Lemma reachable_consistent (h : HookState) : reachable h -> consistent h.
Proof.
  induction 1 as [| now target h _ IH | now h _ IH _].
  - unfold consistent; simpl. repeat split; reflexivity.
  - apply consistent_transitionTo, IH.
  - apply consistent_advance, IH.
Qed.

(** An active transition of a consistent hook state is live. *)
Lemma consistent_live (h : HookState) :
  consistent h -> isTransitioning (transition h) = true ->
  exists t0 : R,
    live (currentState h) (to (transition h)) t0
      (getTransitionDuration (currentState h) (to (transition h))) h.
Proof.
  intros Hc Hactive. unfold consistent in Hc. rewrite Hactive in Hc.
  destruct Hc as (Hfrom & _ & t0 & Href).
  exists t0. repeat split; assumption.
Qed.

(** X1. In every state the engine can reach, the progress is between 0 and
    1; while a transition is active it leaves from the current state for a
    different one and [transitionRef] holds the duration of that pair; while
    none is active the record rests at progress 1 on the current state and
    [transitionRef] is empty. *)
Theorem engine_invariant (h : HookState) :
  reachable h ->
  0 <= progress (transition h) <= 1
  /\ (isTransitioning (transition h) = true ->
      from (transition h) = currentState h
      /\ to (transition h) <> currentState h
      /\ exists t0 : R,
           transitionRef h =
             Some {| startTime := t0;
                     duration := getTransitionDuration (currentState h)
                                   (to (transition h)) |})
  /\ (isTransitioning (transition h) = false ->
      to (transition h) = currentState h
      /\ progress (transition h) = 1
      /\ transitionRef h = None).
Proof.
  intros Hreach.
  pose proof (reachable_consistent h Hreach) as Hc. unfold consistent in Hc.
  split; [exact (reachable_progress_range h Hreach) |].
  split; intros Hactive; rewrite Hactive in Hc; exact Hc.
Qed.

Lemma engine_invariant_witness :
  0 <= progress (transition (advance 500 (transitionTo 0 acting initialState)))
    <= 1
  /\ (to (transition initialState) = currentState initialState
      /\ progress (transition initialState) = 1
      /\ transitionRef initialState = None).
Proof.
  split.
  - apply (engine_invariant (advance 500 (transitionTo 0 acting initialState))).
    apply reachable_advance; [apply reachable_transitionTo, reachable_initial |].
    intros r [= <-]. simpl. lra.
  - apply (engine_invariant initialState reachable_initial). reflexivity.
Defined.

(** X2. A second frame at the same clock reading changes nothing: [advance]
    is idempotent, in every hook state. *)
Theorem advance_idempotent (now : R) (h : HookState) :
  advance now (advance now h) = advance now h.
Proof.
  destruct (isTransitioning (transition h)) eqn:Hactive.
  2:{ rewrite (advance_idle now h Hactive).
      apply advance_idle, Hactive. }
  destruct (transitionRef h) as [r |] eqn:Hr.
  2:{ rewrite (advance_no_ref now h Hr). apply advance_no_ref, Hr. }
  rewrite (advance_live now h r Hactive Hr).
  unfold animate. rewrite Hr.
  destruct (Rge_dec (rawProgress now r) 1) as [Hge | Hlt].
  - apply advance_idle. reflexivity.
  - rewrite (advance_live now _ r) by (simpl; try assumption; reflexivity).
    unfold animate; simpl.
    destruct (Rge_dec (rawProgress now r) 1) as [Hge | _]; [contradiction |].
    rewrite Hactive. reflexivity.
Qed.

Lemma rawProgress_monotone (r : TransitionRef) (now1 now2 : R) :
  0 < duration r -> now1 <= now2 -> rawProgress now1 r <= rawProgress now2 r.
Proof.
  intros Hd Hle. unfold rawProgress.
  apply Rle_min_compat_r.
  apply Rmult_le_compat_r; [left; apply Rinv_0_lt_compat, Hd | lra].
Qed.

Lemma easeInOutCubic_le_1 (x : R) : x <= 1 -> easeInOutCubic x <= 1.
Proof.
  intros Hx. rewrite <- easeInOutCubic_1.
  apply easeInOutCubic_monotone, Hx.
Qed.

(** X3. Within a transition the stored progress never goes back: of two
    successive frames of a reachable engine, the later one leaves a progress
    at least as large as the earlier one. *)
Theorem progress_nondecreasing (h : HookState) (now1 now2 : R) :
  reachable h -> now1 <= now2 ->
  progress (transition (advance now1 h))
  <= progress (transition (advance now2 (advance now1 h))).
Proof.
  intros Hreach Hle.
  pose proof (reachable_consistent h Hreach) as Hc.
  destruct (isTransitioning (transition h)) eqn:Hactive.
  2:{ rewrite (advance_idle now1 h Hactive), (advance_idle now2 h Hactive).
      lra. }
  destruct (consistent_live h Hc Hactive) as (t0 & Hlive).
  set (f := currentState h) in *. set (t := to (transition h)) in *.
  set (d := getTransitionDuration f t) in *.
  assert (Hd : 0 < d) by apply getTransitionDuration_pos.
  destruct (Rlt_dec (now1 - t0) d) as [Hbefore1 | Hafter1].
  - destruct (advance_before f t t0 d now1 h Hd Hlive Hbefore1)
      as [Hlive1 Hp1].
    rewrite Hp1.
    destruct (Rlt_dec (now2 - t0) d) as [Hbefore2 | Hafter2].
    + destruct (advance_before f t t0 d now2 _ Hd Hlive1 Hbefore2)
        as [_ Hp2].
      rewrite Hp2. apply easeInOutCubic_monotone.
      apply rawProgress_monotone; simpl; assumption.
    + rewrite (advance_after f t t0 d now2 _ Hd Hlive1) by lra. simpl.
      apply easeInOutCubic_le_1. unfold rawProgress. apply Rmin_r.
  - rewrite (advance_after f t t0 d now1 h Hd Hlive) by lra.
    rewrite advance_idle by reflexivity. lra.
Qed.

Lemma progress_nondecreasing_witness :
  progress (transition (advance 100 (transitionTo 0 thinking initialState)))
  <= progress
       (transition
          (advance 900 (advance 100 (transitionTo 0 thinking initialState)))).
Proof.
  apply (progress_nondecreasing (transitionTo 0 thinking initialState) 100 900).
  - apply reachable_transitionTo, reachable_initial.
  - lra.
Defined.

Lemma step_before_due (f t : EntityState) (t0 d : R) (e : Event)
    (h : HookState) :
  0 < d -> live f t t0 d h ->
  beforeDue {| startTime := t0; duration := d |} e ->
  live f t t0 d (step h e).
Proof.
  intros Hd Hlive Hdue. destruct e as [now target | now]; simpl in *.
  - rewrite transitionTo_active; [exact Hlive | apply Hlive].
  - apply (advance_before f t t0 d now h Hd Hlive Hdue).
Qed.

Lemma run_before_due (f t : EntityState) (t0 d : R) (events : list Event) :
  0 < d ->
  Forall (beforeDue {| startTime := t0; duration := d |}) events ->
  forall h : HookState, live f t t0 d h -> live f t t0 d (run events h).
Proof.
  intros Hd. induction 1 as [| e events He _ IH]; intros h Hlive.
  - exact Hlive.
  - simpl. apply IH. apply step_before_due; assumption.
Qed.

(** X4. A transition is never preempted.  While one is active in a reachable
    engine, any requests and any frames before it is due leave its target,
    its bookkeeping and the current state as they are; the first frame at or
    after the due time then commits the target it was started with. *)
Theorem transition_not_preempted (h : HookState) (r : TransitionRef)
    (events : list Event) (now : R) :
  reachable h ->
  isTransitioning (transition h) = true ->
  transitionRef h = Some r ->
  Forall (beforeDue r) events ->
  duration r <= now - startTime r ->
  (currentState (run events h) = currentState h
   /\ to (transition (run events h)) = to (transition h)
   /\ isTransitioning (transition (run events h)) = true
   /\ transitionRef (run events h) = Some r)
  /\ currentState (step (run events h) (Frame now)) = to (transition h)
  /\ isTransitioning (transition (step (run events h) (Frame now))) = false.
Proof.
  intros Hreach Hactive Hr Hevents Hdue.
  destruct (consistent_live h (reachable_consistent h Hreach) Hactive)
    as (t0 & Hlive).
  set (f := currentState h) in *. set (t := to (transition h)) in *.
  set (d := getTransitionDuration f t) in *.
  assert (Hd : 0 < d) by apply getTransitionDuration_pos.
  assert (Hreq : r = {| startTime := t0; duration := d |}).
  { destruct Hlive as (_ & _ & _ & _ & Href). congruence. }
  subst r. simpl in Hdue.
  pose proof (run_before_due f t t0 d events Hd Hevents h Hlive) as Hlive1.
  split.
  - destruct Hlive1 as (Hc1 & _ & Ht1 & Ha1 & Hr1). repeat split; assumption.
  - simpl. rewrite (advance_after f t t0 d now _ Hd Hlive1 Hdue).
    split; reflexivity.
Qed.

Lemma transition_not_preempted_witness :
  currentState
    (step
       (run [Request 10 acting; Frame 300; Request 400 resting; Frame 1499]
          (transitionTo 0 thinking initialState))
       (Frame 1500))
  = thinking.
Proof.
  assert (Hd : getTransitionDuration resting thinking = 1500)
    by (rewrite getTransitionDuration_cases; reflexivity).
  apply (transition_not_preempted (transitionTo 0 thinking initialState)
           {| startTime := 0;
              duration := getTransitionDuration resting thinking |}
           [Request 10 acting; Frame 300; Request 400 resting; Frame 1499]
           1500).
  - apply reachable_transitionTo, reachable_initial.
  - reflexivity.
  - reflexivity.
  - simpl. rewrite Hd. repeat constructor; simpl; lra.
  - simpl. rewrite Hd. lra.
Defined.

(** *** Interpolation *)

Lemma interpolated_between (lo hi a b c : R) (s : EntityState)
    (t : TransitionState) :
  lo <= a <= hi -> lo <= b <= hi -> lo <= c <= hi ->
  0 <= progress t <= 1 ->
  lo <= getInterpolatedValue a b c s t <= hi.
Proof.
  intros Ha Hb Hc Hp.
  assert (Hv : forall s', lo <= stateValues a b c s' <= hi)
    by (intros []; assumption).
  unfold getInterpolatedValue.
  destruct (isTransitioning t); simpl; [| apply Hv].
  pose proof (Hv (from t)) as Hf. pose proof (Hv (to t)) as Ht.
  set (x := stateValues a b c (from t)) in *.
  set (y := stateValues a b c (to t)) in *.
  split; nra.
Qed.

(** X5. As long as the progress is between 0 and 1, as it is in every state
    the engine can reach, an interpolated value lies between the smallest and
    the largest of the three state values. *)
Theorem getInterpolatedValue_range (a b c : R) (s : EntityState)
    (t : TransitionState) :
  0 <= progress t <= 1 ->
  Rmin a (Rmin b c) <= getInterpolatedValue a b c s t <= Rmax a (Rmax b c).
Proof.
  intros Hp.
  pose proof (Rmin_l a (Rmin b c)). pose proof (Rmin_r a (Rmin b c)).
  pose proof (Rmin_l b c). pose proof (Rmin_r b c).
  pose proof (Rmax_l a (Rmax b c)). pose proof (Rmax_r a (Rmax b c)).
  pose proof (Rmax_l b c). pose proof (Rmax_r b c).
  apply interpolated_between; try assumption; split; lra.
Qed.

Lemma getInterpolatedValue_range_witness :
  Rmin 1.0 (Rmin 0.7 0.5)
  <= getInterpolatedValue 1.0 0.7 0.5 resting
       {| from := resting; to := acting; progress := 0.25;
          isTransitioning := true |}
  <= Rmax 1.0 (Rmax 0.7 0.5).
Proof.
  apply (getInterpolatedValue_range 1.0 0.7 0.5 resting
           {| from := resting; to := acting; progress := 0.25;
              isTransitioning := true |}).
  simpl. lra.
Defined.

(** X6. An interpolated value does not jump when a transition is requested:
    right after [transitionTo] it is what it was right before, whatever the
    hook state and the target.  And the frame that completes a transition of
    a reachable engine leaves it at the value of the target state. *)
Theorem getInterpolatedValue_no_jump (a b c : R) (h : HookState) (now : R)
    (target : EntityState) :
  getInterpolatedValue a b c (currentState (transitionTo now target h))
    (transition (transitionTo now target h))
  = getInterpolatedValue a b c (currentState h) (transition h)
  /\ (reachable h ->
      isTransitioning (transition h) = true ->
      forall r : TransitionRef,
        transitionRef h = Some r ->
        duration r <= now - startTime r ->
        getInterpolatedValue a b c (currentState (advance now h))
          (transition (advance now h))
        = stateValues a b c (to (transition h))).
Proof.
  split.
  - unfold transitionTo.
    destruct (bool_decide (target = currentState h)); simpl; [reflexivity |].
    destruct (isTransitioning (transition h)) eqn:Hactive; [reflexivity |].
    unfold getInterpolatedValue; simpl. rewrite Hactive; simpl. ring.
  - intros Hreach Hactive r Hr Hdue.
    destruct (consistent_live h (reachable_consistent h Hreach) Hactive)
      as (t0 & Hlive).
    assert (Hreq : r = {| startTime := t0;
                          duration := getTransitionDuration (currentState h)
                                        (to (transition h)) |}).
    { destruct Hlive as (_ & _ & _ & _ & Href). congruence. }
    subst r. simpl in Hdue.
    rewrite (advance_after _ _ t0 _ now h
               (getTransitionDuration_pos _ _) Hlive Hdue).
    reflexivity.
Qed.

Lemma getInterpolatedValue_no_jump_witness :
  getInterpolatedValue 0.3 0.8 1.5
    (currentState (advance 800 (transitionTo 0 acting initialState)))
    (transition (advance 800 (transitionTo 0 acting initialState)))
  = stateValues 0.3 0.8 1.5 acting.
Proof.
  assert (Hd : getTransitionDuration resting acting = 800)
    by (rewrite getTransitionDuration_cases; reflexivity).
  destruct (getInterpolatedValue_no_jump 0.3 0.8 1.5
              (transitionTo 0 acting initialState) 800 acting) as [_ Hend].
  apply (Hend (reachable_transitionTo 0 acting initialState reachable_initial)
           eq_refl
           {| startTime := 0;
              duration := getTransitionDuration resting acting |} eq_refl).
  simpl. rewrite Hd. lra.
Defined.

(** *** Durations and easing *)

Lemma getTransitionDuration_bounds (f t : EntityState) :
  600 <= getTransitionDuration f t <= 2000.
Proof. rewrite getTransitionDuration_cases. destruct f, t; lra. Qed.

(** X19. Every transition takes between 600 and 2000 ms: while one is active
    in a reachable engine, a frame earlier than 600 ms after its start never
    completes it, and a frame 2000 ms or more after its start always does,
    committing its target. *)
Theorem transition_duration_bounds (h : HookState) (r : TransitionRef)
    (now : R) :
  reachable h ->
  isTransitioning (transition h) = true ->
  transitionRef h = Some r ->
  600 <= duration r <= 2000
  /\ (now - startTime r < 600 ->
      isTransitioning (transition (advance now h)) = true
      /\ currentState (advance now h) = currentState h)
  /\ (2000 <= now - startTime r ->
      isTransitioning (transition (advance now h)) = false
      /\ currentState (advance now h) = to (transition h)).
Proof.
  intros Hreach Hactive Hr.
  destruct (consistent_live h (reachable_consistent h Hreach) Hactive)
    as (t0 & Hlive).
  set (f := currentState h) in *. set (t := to (transition h)) in *.
  pose proof (getTransitionDuration_bounds f t) as Hb.
  set (d := getTransitionDuration f t) in *.
  assert (Hreq : r = {| startTime := t0; duration := d |}).
  { destruct Hlive as (_ & _ & _ & _ & Href). congruence. }
  subst r. simpl.
  split; [exact Hb |]. split.
  - intros Hearly.
    destruct (advance_before f t t0 d now h ltac:(lra) Hlive ltac:(lra))
      as [(Hc & _ & _ & Ha & _) _].
    split; assumption.
  - intros Hlate.
    rewrite (advance_after f t t0 d now h ltac:(lra) Hlive ltac:(lra)).
    split; reflexivity.
Qed.

Lemma transition_duration_bounds_witness :
  isTransitioning
    (transition (advance 2000 (transitionTo 0 thinking initialState))) = false
  /\ currentState (advance 2000 (transitionTo 0 thinking initialState))
     = thinking.
Proof.
  destruct (transition_duration_bounds (transitionTo 0 thinking initialState)
              {| startTime := 0;
                 duration := getTransitionDuration resting thinking |} 2000)
    as (_ & _ & Hlate).
  - apply reachable_transitionTo, reachable_initial.
  - reflexivity.
  - reflexivity.
  - apply Hlate. simpl. lra.
Defined.

(** X20. The easing is symmetric about the middle of the transition,
    [easeInOutCubic (1 - t) = 1 - easeInOutCubic t] for every [t], and on
    [0, 1] it lags behind the raw progress in the first half and runs ahead
    of it in the second. *)
Theorem easeInOutCubic_symmetric :
  (forall t : R, easeInOutCubic (1 - t) = 1 - easeInOutCubic t)
  /\ (forall t : R, 0 <= t <= 0.5 -> easeInOutCubic t <= t)
  /\ (forall t : R, 0.5 <= t <= 1 -> t <= easeInOutCubic t).
Proof.
  assert (Hsym : forall t : R, easeInOutCubic (1 - t) = 1 - easeInOutCubic t).
  { intros t.
    destruct (Rlt_dec t 0.5) as [Hlow | Hhigh].
    - rewrite (easeInOutCubic_low t Hlow).
      rewrite easeInOutCubic_high by lra. field.
    - destruct (Req_dec_T t 0.5) as [-> | Hne].
      + replace (1 - 0.5) with 0.5 by lra. rewrite easeInOutCubic_half. lra.
      + rewrite (easeInOutCubic_high t) by lra.
        rewrite easeInOutCubic_low by lra. field. }
  assert (Hlag : forall t : R, 0 <= t <= 0.5 -> easeInOutCubic t <= t).
  { intros t [H0 H1].
    destruct (Req_dec_T t 0.5) as [-> | Hne].
    - rewrite easeInOutCubic_half. lra.
    - rewrite easeInOutCubic_low by lra.
      assert (Hsq : t * t <= 0.25) by nra.
      replace (4 * t ^ 3) with (t * (4 * (t * t))) by ring. nra. }
  split; [exact Hsym |]. split; [exact Hlag |].
  intros t [H0 H1].
  pose proof (Hlag (1 - t) ltac:(lra)) as Hl. rewrite Hsym in Hl. lra.
Qed.

Lemma easeInOutCubic_symmetric_witness :
  easeInOutCubic 0.25 <= 0.25 /\ 0.75 <= easeInOutCubic 0.75.
Proof.
  destruct easeInOutCubic_symmetric as (_ & Hlag & Hlead).
  split; [apply Hlag; lra | apply Hlead; lra].
Defined.

End EngineMore.

(** ** The application shell *)

Section AppFacts.
Import App.





End AppFacts.

(** ** The cloud *)

Section NebulaMore.
Import Engine Three Nebula.

(** A point given by a radius and two angles is at that radius from the
    origin. *)
Lemma length_spherical (r phi theta : R) :
  0 <= r ->
  length (mkVector3 (r * sin phi * cos theta) (r * sin phi * sin theta)
            (r * cos phi)) = r.
Proof.
  intros Hr. unfold length; simpl.
  pose proof (cos_sin_sqr phi) as Hphi.
  pose proof (cos_sin_sqr theta) as Htheta.
  apply sqrt_lem_1; [nra | exact Hr |].
  set (sp := sin phi) in *. set (cp := cos phi) in *.
  set (st := sin theta) in *. set (ct := cos theta) in *.
  nsatz.
Qed.

Lemma length_scaled_abs (v : Vector3) (k : R) :
  length (multiplyScalar v k) = Rabs k * length v.
Proof.
  unfold length, multiplyScalar; simpl.
  replace (vx v * k * (vx v * k) + vy v * k * (vy v * k)
           + vz v * k * (vz v * k))
    with (Rsqr k * (vx v * vx v + vy v * vy v + vz v * vz v))
    by (unfold Rsqr; ring).
  rewrite sqrt_mult_alt by apply Rle_0_sqr.
  rewrite sqrt_Rsqr_abs. reflexivity.
Qed.

Lemma length_zero (v : Vector3) : length v = 0 -> v = mkVector3 0 0 0.
Proof.
  intros Hz. pose proof (length_sqr v) as Hsq. rewrite Hz in Hsq.
  apply vector_eq; simpl; nra.
Qed.

Lemma initialParticles_lookup (random : nat -> R) (i : nat)
    (p : CloudParticle) :
  initialParticles random !! i = Some p ->
  ((i < 400)%nat /\ p = coreParticle random (8 * i))
  \/ ((400 <= i < 750)%nat /\ p = midParticle random (8 * i))
  \/ ((750 <= i < 1000)%nat /\ p = edgeParticle random (8 * i)).
Proof.
  unfold initialParticles, CORE_PARTICLES, MID_PARTICLES, EDGE_PARTICLES.
  intros Hi.
  apply lookup_app_Some in Hi as [Hi | [Hlen Hi]].
  - left. rewrite list_lookup_fmap in Hi.
    destruct (seq 0 400 !! i) as [k |] eqn:Hk; [| discriminate].
    apply lookup_seq in Hk as [-> Hlt]. injection Hi as <-.
    split; [exact Hlt | reflexivity].
  - rewrite length_fmap, length_seq in Hlen, Hi.
    apply lookup_app_Some in Hi as [Hi | [Hlen2 Hi]].
    + right; left. rewrite list_lookup_fmap in Hi.
      destruct (seq 0 350 !! (i - 400)%nat) as [k |] eqn:Hk; [| discriminate].
      apply lookup_seq in Hk as [-> Hlt]. injection Hi as <-.
      split; [lia |]. f_equal. lia.
    + rewrite length_fmap, length_seq in Hlen2, Hi.
      right; right. rewrite list_lookup_fmap in Hi.
      destruct (seq 0 250 !! (i - 400 - 350)%nat) as [k |] eqn:Hk;
        [| discriminate].
      apply lookup_seq in Hk as [-> Hlt]. injection Hi as <-.
      split; [lia |]. f_equal. lia.
Qed.

(** X8. The cloud is laid out inside the shells the frames then keep it in.
    Whatever [Math.random()] returns (in [0, 1)), there are 1000 particles;
    the first 400 are core particles within 0.6 of the origin, the next 350
    are mid particles between 0.5 and 1.5, and the last 250 are edge
    particles between 1.2 and 2.5; so every particle starts strictly within
    [maxDist] of its layer, which is the bound of the soft boundary at
    rest. *)
Theorem initialParticles_in_shells (random : nat -> R) :
  (forall n : nat, 0 <= random n < 1) ->
  Datatypes.length (initialParticles random) = 1000%nat
  /\ forall (i : nat) (p : CloudParticle),
       initialParticles random !! i = Some p ->
       length (cp_position p) < maxDist (cp_layer p)
       /\ ((i < 400)%nat ->
           cp_layer p = 0 /\ 0 <= length (cp_position p) < 0.6)
       /\ ((400 <= i < 750)%nat ->
           cp_layer p = 1 /\ 0.5 <= length (cp_position p) < 1.5)
       /\ ((750 <= i)%nat ->
           cp_layer p = 2 /\ 1.2 <= length (cp_position p) < 2.5).
Proof.
  intros Hrandom. split.
  - unfold initialParticles. rewrite !length_app, !length_fmap, !length_seq.
    reflexivity.
  - intros i p Hi.
    destruct maxDist_shells as (Hcore & Hmid & Hedge).
    destruct (initialParticles_lookup random i p Hi)
      as [[Hlt ->] | [[Hlt ->] | [Hlt ->]]];
      unfold coreParticle, midParticle, edgeParticle;
      cbn [cp_position cp_layer];
      pose proof (Hrandom (8 * i + 2)%nat) as Hr;
      rewrite length_spherical by lra.
    + rewrite Hcore. split; [lra |].
      split; [intros _; split; [reflexivity | lra] |].
      split; intros; lia.
    + rewrite Hmid. split; [lra |].
      split; [intros; lia |].
      split; [intros _; split; [reflexivity | lra] | intros; lia].
    + rewrite Hedge. split; [lra |].
      split; [intros; lia |].
      split; [intros; lia | intros _; split; [reflexivity | lra]].
Qed.

Lemma initialParticles_in_shells_witness :
  Datatypes.length (initialParticles (fun _ => 0.5)) = 1000%nat
  /\ length (cp_position (midParticle (fun _ => 0.5) (8 * 400)))
     < maxDist (cp_layer (midParticle (fun _ => 0.5) (8 * 400))).
Proof.
  destruct (initialParticles_in_shells (fun _ => 0.5)) as [Hcount Hshell].
  { intros n. lra. }
  split; [exact Hcount |].
  apply (Hshell 400%nat (midParticle (fun _ => 0.5) (8 * 400))).
  reflexivity.
Defined.

(** X9. The pull toward the center moves a particle along its own ray: a
    particle at the origin stays there (the direction of the zero vector is
    normalized to the zero vector), and any other particle ends at distance
    [|length p - 0.01 * flowSpeed * delta|], which is closer by exactly the
    step when the step does not exceed the distance. *)
Theorem pullToCenter_distance (flowSpeed delta : R) (p : Vector3) :
  (length p = 0 -> pullToCenter flowSpeed delta p = p)
  /\ (length p <> 0 ->
      length (pullToCenter flowSpeed delta p)
      = Rabs (length p - 0.01 * flowSpeed * delta))
  /\ (0 <= 0.01 * flowSpeed * delta <= length p ->
      length (pullToCenter flowSpeed delta p)
      = length p - 0.01 * flowSpeed * delta).
Proof.
  assert (Hneg : length {| vx := - vx p; vy := - vy p; vz := - vz p |}
                 = length p).
  { unfold length; simpl. f_equal. ring. }
  assert (Hzero : length p = 0 -> pullToCenter flowSpeed delta p = p).
  { intros Hz. unfold pullToCenter, normalize. rewrite Hneg, Hz.
    destruct (Req_dec_T 0 0) as [_ | Hn]; [| lra].
    rewrite (length_zero p Hz).
    unfold divideScalar, multiplyScalar; simpl.
    apply vector_eq; simpl; lra. }
  assert (Hfar : length p <> 0 ->
                 length (pullToCenter flowSpeed delta p)
                 = Rabs (length p - 0.01 * flowSpeed * delta)).
  { intros Hnz. pose proof (length_nonneg p) as Hpos.
    assert (Hshape :
      pullToCenter flowSpeed delta p
      = multiplyScalar p (1 - 0.01 * flowSpeed * delta / length p)).
    { unfold pullToCenter, normalize. rewrite Hneg.
      destruct (Req_dec_T (length p) 0) as [Hz | _]; [contradiction |].
      unfold divideScalar, multiplyScalar; simpl.
      apply vector_eq; simpl; field; exact Hnz. }
    rewrite Hshape, length_scaled_abs.
    rewrite <- (Rabs_right (length p)) at 2 by lra.
    rewrite <- Rabs_mult. f_equal. field. exact Hnz. }
  split; [exact Hzero |]. split; [exact Hfar |].
  intros [Hs Hle].
  destruct (Req_dec_T (length p) 0) as [Hz | Hnz].
  - rewrite Hzero by exact Hz. lra.
  - rewrite Hfar by exact Hnz. apply Rabs_right. lra.
Qed.

Lemma pullToCenter_distance_witness :
  pullToCenter 0.3 0.016 (mkVector3 0 0 0) = mkVector3 0 0 0
  /\ length (pullToCenter 0.3 0.016 (mkVector3 3 4 0))
     = Rabs (length (mkVector3 3 4 0) - 0.01 * 0.3 * 0.016).
Proof.
  assert (Hlen : length (mkVector3 3 4 0) = 5).
  { unfold length; simpl. apply sqrt_lem_1; lra. }
  destruct (pullToCenter_distance 0.3 0.016 (mkVector3 0 0 0)) as (Hz & _).
  destruct (pullToCenter_distance 0.3 0.016 (mkVector3 3 4 0)) as (_ & Hfar & _).
  split.
  - apply Hz. unfold length; simpl.
    replace (0 * 0 + 0 * 0 + 0 * 0) with 0 by ring. apply sqrt_0.
  - apply Hfar. rewrite Hlen. lra.
Defined.

(** X10. The soft boundary only ever shrinks a position along its ray, and
    applying it twice is applying it once: with a contraction that is not
    negative, what it returns is the position times a factor between 0 and
    1, and is left alone by a second application. *)
Theorem softBoundary_idempotent (contraction layer : R) (p : Vector3) :
  0 <= contraction ->
  softBoundary contraction layer (softBoundary contraction layer p)
  = softBoundary contraction layer p
  /\ exists k : R,
       0 <= k <= 1 /\ softBoundary contraction layer p = multiplyScalar p k.
Proof.
  intros Hc. split.
  - apply softBoundary_inside, softBoundary_bound, Hc.
  - pose proof (maxDist_pos layer) as Hm.
    assert (HM : 0 <= maxDist layer * contraction)
      by (apply Rmult_le_pos; lra).
    unfold softBoundary. fold (length p).
    destruct (Rgt_dec (length p) (maxDist layer * contraction)) as [Hout | _].
    + exists (maxDist layer * contraction / length p * 0.95).
      split; [| reflexivity].
      assert (Hlen : 0 < length p) by lra.
      assert (Hq : 0 <= maxDist layer * contraction / length p <= 1).
      { split.
        - apply Rmult_le_pos; [exact HM |].
          left. apply Rinv_0_lt_compat, Hlen.
        - apply Rmult_le_reg_r with (length p); [exact Hlen |].
          unfold Rdiv. rewrite Rmult_assoc, Rinv_l by lra. lra. }
      lra.
    + exists 1. split; [lra |].
      unfold multiplyScalar. apply vector_eq; simpl; ring.
Qed.

Lemma softBoundary_idempotent_witness :
  softBoundary 0.5 2 (softBoundary 0.5 2 (mkVector3 3 4 0))
  = softBoundary 0.5 2 (mkVector3 3 4 0).
Proof.
  apply (softBoundary_idempotent 0.5 2 (mkVector3 3 4 0)). lra.
Defined.

(** X11. The heart of the cloud never collapses nor turns inside out: with
    the progress between 0 and 1, the scale given to the mesh stays between
    0.2125 and 0.46 at every time. *)
Theorem NebulaCore_scale_range (cs : EntityState) (tr : TransitionState)
    (time : R) :
  0 <= progress tr <= 1 ->
  0.2125 <= NebulaCore_scale cs tr time <= 0.46.
Proof.
  intros Hp. unfold NebulaCore_scale.
  pose proof (interpolated_between 0.4 1.5 0.4 0.7 1.5 cs tr
                ltac:(lra) ltac:(lra) ltac:(lra) Hp) as Hi.
  pose proof (interpolated_between 0.25 0.4 0.4 0.35 0.25 cs tr
                ltac:(lra) ltac:(lra) ltac:(lra) Hp) as Hs.
  pose proof (SIN_bound (time * 2)) as Hsin.
  set (intensity := getInterpolatedValue 0.4 0.7 1.5 cs tr) in *.
  set (scale := getInterpolatedValue 0.4 0.35 0.25 cs tr) in *.
  set (s := sin (time * 2)) in *.
  assert (Hb : 0.85 <= 1 + s * 0.1 * intensity <= 1.15) by nra.
  split; nra.
Qed.

Lemma NebulaCore_scale_range_witness :
  0.2125 <= NebulaCore_scale resting (transition initialState) 1 <= 0.46.
Proof.
  apply (NebulaCore_scale_range resting (transition initialState) 1).
  simpl. lra.
Defined.

End NebulaMore.

(** ** The rings *)

Section OphanimMore.
Import Engine Three Ophanim.

Lemma setFromAxisAngle_zero (a p : Vector3) :
  applyQuaternion (setFromAxisAngle a 0) p = p.
Proof.
  unfold applyQuaternion, setFromAxisAngle; simpl.
  replace (0 / 2) with 0 by lra. rewrite sin_0, cos_0.
  apply vector_eq; simpl; ring.
Qed.

(** Two turns about the same unit axis make the turn by the sum of the
    angles. *)
Lemma applyQuaternion_compose (a p : Vector3) (angle1 angle2 : R) :
  dot a a = 1 ->
  applyQuaternion (setFromAxisAngle a angle2)
    (applyQuaternion (setFromAxisAngle a angle1) p)
  = applyQuaternion (setFromAxisAngle a (angle1 + angle2)) p.
Proof.
  unfold dot, applyQuaternion, setFromAxisAngle; simpl. intros Ha.
  replace ((angle1 + angle2) / 2) with (angle1 / 2 + angle2 / 2) by lra.
  rewrite sin_plus, cos_plus.
  pose proof (cos_sin_sqr (angle1 / 2)) as H1.
  pose proof (cos_sin_sqr (angle2 / 2)) as H2.
  set (s1 := sin (angle1 / 2)) in *. set (c1 := cos (angle1 / 2)) in *.
  set (s2 := sin (angle2 / 2)) in *. set (c2 := cos (angle2 / 2)) in *.
  destruct a as [ax ay az], p as [x y z]; simpl in *.
  apply vector_eq; simpl; nsatz.
Qed.

Lemma map_id_ext {A : Type} (f : A -> A) (l : list A) :
  (forall x, f x = x) -> map f l = l.
Proof.
  intros Hf. induction l as [| x l IH]; simpl; [reflexivity |].
  rewrite Hf, IH. reflexivity.
Qed.

(** X12. Frames of a ring add up: with a unit axis, a frame of [delta = 0]
    leaves every position where it is, and two frames in the same state are
    one frame of the sum of their [delta]s. *)
Theorem useFrame_adds (config : RingConfig) (cs : EntityState)
    (tr : TransitionState) (delta1 delta2 : R) (positions : list Vector3) :
  dot (axis config) (axis config) = 1 ->
  useFrame config cs tr 0 positions = positions
  /\ useFrame config cs tr delta2 (useFrame config cs tr delta1 positions)
     = useFrame config cs tr (delta1 + delta2) positions.
Proof.
  intros Ha. unfold useFrame. split.
  - replace (0 * speed config * speedMultiplier cs tr) with 0 by ring.
    apply map_id_ext. intros p. apply setFromAxisAngle_zero.
  - rewrite map_map. apply map_ext. intros p.
    rewrite applyQuaternion_compose by exact Ha.
    f_equal. f_equal. ring.
Qed.

Lemma useFrame_adds_witness :
  useFrame (mkRingConfig (mkVector3 0 1 0) 1.8 (-0.8) (PI / 4)) thinking
    (transition initialState) 0 [mkVector3 1 2 3]
  = [mkVector3 1 2 3].
Proof.
  apply (useFrame_adds (mkRingConfig (mkVector3 0 1 0) 1.8 (-0.8) (PI / 4))
           thinking (transition initialState) 0 0 [mkVector3 1 2 3]).
  unfold dot; simpl. lra.
Defined.

Lemma ringFrames_invariant (config : RingConfig)
    (frames : list (EntityState * TransitionState * R)) :
  dot (axis config) (axis config) = 1 ->
  forall s : RingState,
    rs_positions s
    = map (applyQuaternion (setFromAxisAngle (axis config) (rs_rotation s)))
        (basePositions config) ->
    rs_positions (ringFrames config frames s)
    = map (applyQuaternion
             (setFromAxisAngle (axis config)
                (rs_rotation (ringFrames config frames s))))
        (basePositions config).
Proof.
  intros Ha. unfold ringFrames.
  induction frames as [| [[cs tr] delta] frames IH]; intros s Hs.
  - exact Hs.
  - cbn [foldl]. apply IH. unfold ringFrame.
    cbn [rs_positions rs_rotation]. unfold useFrame.
    rewrite Hs, map_map. apply map_ext. intros p.
    apply applyQuaternion_compose, Ha.
Qed.

Lemma ringFrames_from_initial (config : RingConfig)
    (frames : list (EntityState * TransitionState * R)) :
  dot (axis config) (axis config) = 1 ->
  rs_positions (ringFrames config frames (ringInitial config))
  = map (applyQuaternion
           (setFromAxisAngle (axis config)
              (rs_rotation (ringFrames config frames (ringInitial config)))))
      (basePositions config).
Proof.
  intros Ha. apply ringFrames_invariant; [exact Ha |].
  unfold ringInitial. cbn [rs_positions rs_rotation]. symmetry.
  apply map_id_ext. intros p. apply setFromAxisAngle_zero.
Qed.

(** X13. The rotation counter of a ring tells where its particles are: after
    any frames, in whatever states and with whatever [delta]s, every position
    is the base position turned about the axis of the ring by
    [rotationRef.current]. *)
Theorem ring_positions_from_rotation (config : RingConfig)
    (frames : list (EntityState * TransitionState * R)) :
  dot (axis config) (axis config) = 1 ->
  rs_positions (ringFrames config frames (ringInitial config))
  = map (applyQuaternion
           (setFromAxisAngle (axis config)
              (rs_rotation (ringFrames config frames (ringInitial config)))))
      (basePositions config).
Proof. apply ringFrames_from_initial. Qed.

Lemma ring_positions_from_rotation_witness :
  rs_positions
    (ringFrames (mkRingConfig (mkVector3 1 0 0) 2.0 1.0 0)
       [(resting, transition initialState, 0.016);
        (acting, transition initialState, 0.02)]
       (ringInitial (mkRingConfig (mkVector3 1 0 0) 2.0 1.0 0)))
  = map (applyQuaternion
           (setFromAxisAngle (mkVector3 1 0 0)
              (rs_rotation
                 (ringFrames (mkRingConfig (mkVector3 1 0 0) 2.0 1.0 0)
                    [(resting, transition initialState, 0.016);
                     (acting, transition initialState, 0.02)]
                    (ringInitial (mkRingConfig (mkVector3 1 0 0) 2.0 1.0 0))))))
      (basePositions (mkRingConfig (mkVector3 1 0 0) 2.0 1.0 0)).
Proof.
  apply (ring_positions_from_rotation
           (mkRingConfig (mkVector3 1 0 0) 2.0 1.0 0)
           [(resting, transition initialState, 0.016);
            (acting, transition initialState, 0.02)]).
  unfold dot; simpl. lra.
Defined.





End OphanimMore.

(** ** The eyes and the core glow *)

Section EyeFacts.
Import Engine Three Ophanim.

Lemma eye_ring_size (k : nat) :
  (if Req_dec_T (INR k) 0 then 4.0 else 2.5 - INR k * 0.3)
  = match k with O => 4.0 | S _ => 2.5 - INR k * 0.3 end.
Proof.
  destruct k as [| k].
  - simpl. destruct (Req_dec_T 0 0); [reflexivity | lra].
  - destruct (Req_dec_T (INR (S k)) 0) as [Hz | _]; [| reflexivity].
    pose proof (pos_INR k). rewrite S_INR in Hz. lra.
Qed.

(** X15. The iris of an eye is made of rings that grow outward and shrink in
    size.  Every particle lies in the plane [z = 0] of the eye at the
    distance that its [dist] attribute records; the thirty particles form
    three rings of ten, at distances 0.05, 0.13 and 0.21 with sizes 4.0, 2.2
    and 1.9; and a later particle is never nearer to the center nor larger
    than an earlier one. *)
Theorem eyeParticle_iris (i : nat) :
  length (ep_position (eyeParticle i)) = ep_distance (eyeParticle i)
  /\ vz (ep_position (eyeParticle i)) = 0
  /\ ((i < 10)%nat ->
      ep_distance (eyeParticle i) = 0.05 /\ ep_size (eyeParticle i) = 4.0)
  /\ ((10 <= i < 20)%nat ->
      ep_distance (eyeParticle i) = 0.13 /\ ep_size (eyeParticle i) = 2.2)
  /\ ((20 <= i < 30)%nat ->
      ep_distance (eyeParticle i) = 0.21 /\ ep_size (eyeParticle i) = 1.9)
  /\ (forall j : nat,
        (i <= j)%nat ->
        ep_distance (eyeParticle i) <= ep_distance (eyeParticle j)
        /\ ep_size (eyeParticle j) <= ep_size (eyeParticle i)).
Proof.
  unfold eyeParticle; cbn [ep_position ep_distance ep_size vz].
  rewrite !eye_ring_size.
  split; [| split; [reflexivity |]].
  - pose proof (pos_INR (i / 10)) as Hk.
    unfold length; cbn [vx vy vz].
    replace (0 * 0) with 0 by ring. rewrite Rplus_0_r.
    apply polar_radius. lra.
  - split; [| split; [| split]].
    + intros Hi. rewrite (Nat.div_small i 10) by lia. simpl. split; lra.
    + intros Hi.
      replace (i / 10)%nat with 1%nat
        by (apply (Nat.div_unique i 10 1 (i - 10)); lia).
      simpl. split; lra.
    + intros Hi.
      replace (i / 10)%nat with 2%nat
        by (apply (Nat.div_unique i 10 2 (i - 20)); lia).
      simpl. split; lra.
    + intros j Hij. rewrite eye_ring_size.
      assert (Hdiv : (i / 10 <= j / 10)%nat) by (apply Nat.Div0.div_le_mono, Hij).
      pose proof (le_INR _ _ Hdiv) as Hle.
      pose proof (pos_INR (i / 10)) as Hi0.
      split; [lra |].
      destruct (i / 10)%nat as [| ki] eqn:Hki,
               (j / 10)%nat as [| kj] eqn:Hkj.
      * lra.
      * rewrite S_INR in *. pose proof (pos_INR kj). lra.
      * lia.
      * lra.
Qed.

Lemma eyeParticle_iris_witness :
  ep_distance (eyeParticle 14) = 0.13
  /\ ep_size (eyeParticle 14) = 2.2
  /\ ep_size (eyeParticle 25) <= ep_size (eyeParticle 3).
Proof.
  destruct (eyeParticle_iris 14) as (_ & _ & _ & Hsecond & _).
  destruct (eyeParticle_iris 3) as (_ & _ & _ & _ & _ & Hlater).
  destruct Hsecond as [Hd Hs]; [lia |].
  destruct (Hlater 25%nat) as [_ Hsize]; [lia |].
  repeat split; assumption.
Defined.

(** X16. The modulation of an eye only ever dims it: with the progress
    between 0 and 1, the intensity given to the shader is at most the
    interpolated intensity, which is at most 1.5, and it is at least 0.072,
    so an eye never goes dark and never gets a negative point size. *)
Theorem eyeIntensity_range (index : nat) (cs : EntityState)
    (tr : TransitionState) (time : R) :
  0 <= progress tr <= 1 ->
  0.072 <= eyeIntensity index cs tr time
  /\ eyeIntensity index cs tr time <= getInterpolatedValue 0.3 0.7 1.5 cs tr
  /\ getInterpolatedValue 0.3 0.7 1.5 cs tr <= 1.5.
Proof.
  intros Hp. unfold eyeIntensity.
  pose proof (interpolated_between 0.3 1.5 0.3 0.7 1.5 cs tr
                ltac:(lra) ltac:(lra) ltac:(lra) Hp) as Hi.
  pose proof (SIN_bound (time * 3 + INR index * 0.8)) as Hscan.
  pose proof (SIN_bound (time * 8)) as Hblaze.
  set (intensity := getInterpolatedValue 0.3 0.7 1.5 cs tr) in *.
  set (scanWave := sin (time * 3 + INR index * 0.8)) in *.
  set (b := sin (time * 8)) in *.
  assert (Hscanned : 0.12 <= intensity * (0.7 + scanWave * 0.3) <= intensity)
    by (split; nra).
  destruct (bool_decide (cs = thinking)
            || isTransitioning tr && bool_decide (to tr = thinking));
    destruct (bool_decide (cs = acting)); cbv zeta.
  - set (x := intensity * (0.7 + scanWave * 0.3)) in *.
    split; [nra | split; [nra | lra]].
  - split; [lra | split; lra].
  - split; [nra | split; [nra | lra]].
  - split; [lra | split; lra].
Qed.

Lemma eyeIntensity_range_witness :
  0.072 <= eyeIntensity 3 acting
             {| from := acting; to := thinking; progress := 0.5;
                isTransitioning := true |} 1.
Proof.
  apply (eyeIntensity_range 3 acting
           {| from := acting; to := thinking; progress := 0.5;
              isTransitioning := true |} 1).
  simpl. lra.
Defined.

(** X17. The core glow never collapses nor turns inside out: with the
    progress between 0 and 1, the scale given to the mesh stays between 0.752
    and 1.166 at every time. *)
Theorem CoreGlow_scale_range (cs : EntityState) (tr : TransitionState)
    (time : R) :
  0 <= progress tr <= 1 ->
  0.752 <= CoreGlow_scale cs tr time <= 1.166.
Proof.
  intros Hp. unfold CoreGlow_scale.
  pose proof (interpolated_between 0.3 1.2 0.3 0.6 1.2 cs tr
                ltac:(lra) ltac:(lra) ltac:(lra) Hp) as Hi.
  pose proof (interpolated_between 0.8 1.1 0.8 0.9 1.1 cs tr
                ltac:(lra) ltac:(lra) ltac:(lra) Hp) as Hs.
  pose proof (SIN_bound (time * 1.5)) as Hsin.
  set (intensity := getInterpolatedValue 0.3 0.6 1.2 cs tr) in *.
  set (scale := getInterpolatedValue 0.8 0.9 1.1 cs tr) in *.
  set (s := sin (time * 1.5)) in *.
  assert (Hb : 0.94 <= 1 + s * 0.05 * intensity <= 1.06) by nra.
  split; nra.
Qed.

Lemma CoreGlow_scale_range_witness :
  0.752 <= CoreGlow_scale thinking (transition initialState) 2 <= 1.166.
Proof.
  apply (CoreGlow_scale_range thinking (transition initialState) 2).
  simpl. lra.
Defined.

End EyeFacts.

(** ** The stars *)

Section StarFacts.
Import Three SpaceEnvironment.

(** X18. The stars are laid out on a shell around the scene: whatever
    [Math.random()] returns (in [0, 1)), there are 200 of them, each at a
    distance from the origin of at least 80 and less than 120, with a size of
    at least 0.5 and less than 2. *)
Theorem stars_on_shell (random : nat -> R) :
  (forall n : nat, 0 <= random n < 1) ->
  Datatypes.length (stars random) = 200%nat
  /\ forall (i : nat) (s : Star),
       stars random !! i = Some s ->
       80 <= length (star_position s) < 120
       /\ 0.5 <= star_size s < 2.
Proof.
  intros Hrandom. split.
  - unfold stars. rewrite length_fmap, length_seq. reflexivity.
  - intros i s Hi. unfold stars in Hi. rewrite list_lookup_fmap in Hi.
    destruct (seq 0 STAR_COUNT !! i) as [k |]; [| discriminate].
    change (Some (star random (5 * k)) = Some s) in Hi.
    assert (Hs' : s = star random (5 * k)) by congruence.
    subst s. unfold star; cbn [star_position star_size].
    pose proof (Hrandom (5 * k + 2)%nat) as Hr.
    pose proof (Hrandom (5 * k + 3)%nat) as Hs.
    rewrite length_spherical by lra. split; lra.
Qed.

Lemma stars_on_shell_witness :
  Datatypes.length (stars (fun _ => 0.25)) = 200%nat
  /\ 80 <= length (star_position (star (fun _ => 0.25) (5 * 7))) < 120.
Proof.
  destruct (stars_on_shell (fun _ => 0.25)) as [Hcount Hshell].
  { intros n. lra. }
  split; [exact Hcount |].
  apply (Hshell 7%nat (star (fun _ => 0.25) (5 * 7))). reflexivity.
Defined.

End StarFacts.
